(** * openapi-gen: the schema-to-TypeScript generator of nakama-js

    A shallow embedding of [openapi-gen/main.go]: the two naming helpers
    ([snakeCaseToCamelCase], [convertRefToClassName]), the schema struct that
    [json.Unmarshal] fills, and the execution of [codeTemplate] by Go's
    [text/template] on that struct, followed by the properties of the
    generator that its specification states.

    Strings are Rocq [string]s, read as ASCII text.  The Go code ranges over
    runes; on ASCII text a rune is a byte, and every statement below that
    depends on letter case is about ASCII input. *)

From Stdlib Require Import Ascii String.
From stdpp Require Import base option list sorting strings gmap.

(** * The program *)

(** ** Go library functions used by the generator *)

Module Go.

Definition code (c : ascii) : nat := nat_of_ascii c.

Definition is_lower (c : ascii) : bool := (97 <=? code c) && (code c <=? 122).
Definition is_upper (c : ascii) : bool := (65 <=? code c) && (code c <=? 90).
Definition is_digit (c : ascii) : bool := (48 <=? code c) && (code c <=? 57).
Definition underscore : ascii := "_"%char.

(** [unicode.ToLower], [unicode.ToUpper] and [unicode.ToTitle] on an ASCII
    rune; title case and upper case coincide on ASCII. *)
Definition rune_ToLower (c : ascii) : ascii :=
  if is_upper c then ascii_of_nat (code c + 32) else c.
Definition rune_ToUpper (c : ascii) : ascii :=
  if is_lower c then ascii_of_nat (code c - 32) else c.
Definition rune_ToTitle (c : ascii) : ascii := rune_ToUpper c.

(** [strings.Map]. *)
Fixpoint Map (f : ascii → ascii) (s : string) : string :=
  match s with
  | EmptyString => EmptyString
  | String c s' => String (f c) (Map f s')
  end.

Definition ToLower : string → string := Map rune_ToLower.
Definition ToUpper : string → string := Map rune_ToUpper.

(** [strings.isSeparator]: ASCII alphanumerics and underscore are not
    separators, every other ASCII rune is.  Above 0x7F Go asks the Unicode
    tables; a byte there is part of a multi-byte rune and is left alone. *)
Definition isSeparator (r : ascii) : bool :=
  if code r <=? 127
  then negb (is_digit r || is_lower r || is_upper r || Ascii.eqb r underscore)
  else false.

(** [strings.Title]: a closure over [prev], initially a space, mapped over
    the string; a rune is title-cased when the rune before it is a
    separator. *)
Fixpoint Title_from (prev : ascii) (s : string) : string :=
  match s with
  | EmptyString => EmptyString
  | String r s' =>
      String (if isSeparator prev then rune_ToTitle r else r) (Title_from r s')
  end.
Definition Title (s : string) : string := Title_from " "%char s.

(** [strings.HasPrefix] and [strings.TrimPrefix]. *)
Fixpoint HasPrefix (s prefix : string) {struct prefix} : bool :=
  match prefix, s with
  | EmptyString, _ => true
  | String p prefix', String c s' => Ascii.eqb c p && HasPrefix s' prefix'
  | String _ _, EmptyString => false
  end.

Fixpoint drop (n : nat) (s : string) : string :=
  match n, s with
  | S n', String _ s' => drop n' s'
  | _, _ => s
  end.

Definition TrimPrefix (s prefix : string) : string :=
  if HasPrefix s prefix then drop (String.length prefix) s else s.

End Go.

(** ** The naming helpers of [main.go] *)

(** The loop of [snakeCaseToCamelCase]: [k] is the index of the rune [v] being
    visited, [input0] the first byte of the input, and the state is the pair
    of the result so far and the flag [isToUpper]. *)
Fixpoint camelCase_loop (input0 : ascii) (k : nat) (rest : string)
    (camelCase : string) (isToUpper : bool) : string :=
  match rest with
  | EmptyString => camelCase
  | String v rest' =>
      if Nat.eqb k 0 then
        camelCase_loop input0 (S k) rest'
          (Go.ToLower (String input0 EmptyString)) isToUpper
      else if isToUpper then
        camelCase_loop input0 (S k) rest'
          (camelCase +:+ Go.ToUpper (String v EmptyString)) false
      else if Ascii.eqb v Go.underscore then
        camelCase_loop input0 (S k) rest' camelCase true
      else
        camelCase_loop input0 (S k) rest' (camelCase +:+ String v EmptyString) false
  end.

Definition snakeCaseToCamelCase (input : string) : string :=
  match input with
  | EmptyString => EmptyString
  | String input0 _ => camelCase_loop input0 0 input EmptyString false
  end.

Definition definitions_prefix : string := "#/definitions/".

Definition convertRefToClassName (input : string) : string :=
  let cleanRef := Go.TrimPrefix input definitions_prefix in
  Go.Title cleanRef.

(** ** The schema struct of [main]

    One module per (anonymous) Go struct, named after the field that holds
    it; [Type_] is the Go field [Type].  A field that the document leaves
    out has the zero value of its type: the empty string, [false], the empty
    map or slice.  Go maps keyed by strings are [gmap string _]. *)

Module PropertyItems.
Record t := { Type_ : string; Ref : string }.
End PropertyItems.

Module AdditionalProperties.
Record t := { Type_ : string }.
End AdditionalProperties.

Module Property.
Record t := {
  Type_ : string;
  Ref : string;
  Items : PropertyItems.t;
  AdditionalProperties : AdditionalProperties.t;
  Format : string;
  Description : string
}.
End Property.

Module Defn.
Record t := {
  Properties : gmap string Property.t;
  Description : string
}.
End Defn.

Module ParamItems.
Record t := { Type_ : string }.
End ParamItems.

Module ParamSchema.
Record t := { Type_ : string; Ref : string }.
End ParamSchema.

Module Param.
Record t := {
  Name : string;
  In : string;
  Required : bool;
  Type_ : string;
  Items : ParamItems.t;
  Schema : ParamSchema.t
}.
End Param.

Module ResponseSchema.
Record t := { Ref : string }.
End ResponseSchema.

Module ResponseOk.
Record t := { Schema : ResponseSchema.t }.
End ResponseOk.

Module Responses.
Record t := { Ok : ResponseOk.t }.
End Responses.

Module Operation.
Record t := {
  Summary : string;
  OperationId : string;
  Responses : Responses.t;
  Parameters : list Param.t
}.
End Operation.

Module Schema.
Record t := {
  Paths : gmap string (gmap string Operation.t);
  Definitions : gmap string Defn.t
}.
End Schema.

(** ** Template execution

    [Template.Execute] writes to its writer as it goes and stops at the first
    error; [main] drops the error it returns (and flushes the buffered writer
    all the same), so what reaches the output is whatever was written.  An
    execution is modelled by the text written and the error, if any. *)

Inductive ExecError : Type :=
  | wrong_type_for_value (expected got : string)
  | cant_evaluate_field (field : string).

Definition Exec : Type := string * option ExecError.

Definition written (e : Exec) : string := e.1.
Definition failure (e : Exec) : option ExecError := e.2.

Definition write (s : string) : Exec := (s, None).
Definition throw (err : ExecError) : Exec := (EmptyString, Some err).

(** One node of the template after another: the second runs when the first
    did not fail. *)
Definition andThen (a b : Exec) : Exec :=
  match failure a with
  | Some _ => a
  | None => (written a +:+ written b, failure b)
  end.

Infix ">>>" := andThen (at level 62, right associativity).

(** [{{range $x := slice}} body {{end}}]. *)
Fixpoint range {A} (l : list A) (body : A → Exec) : Exec :=
  match l with
  | [] => write EmptyString
  | x :: l' => body x >>> range l' body
  end.

(** [reflect.Value.MapKeys] returns the keys of a map in no specified order:
    any enumeration of the key set. *)
Class MapKeys := {
  map_keys : ∀ V, gmap string V → list string;
  map_keys_perm : ∀ V (m : gmap string V), map_keys V m ≡ₚ (map_to_list m).*1
}.
Global Arguments map_keys {_ _} _.

(** [{{range $k, $v := map}} body {{end}}]: the template sorts the keys
    ([sortKeys (val.MapKeys ())], strings compared bytewise) and visits
    [val.MapIndex key] for each. *)
Definition sortKeys (keys : list string) : list string := merge_sort String.le keys.

Definition range_map `{MapKeys} {V} (m : gmap string V) (body : string → V → Exec) : Exec :=
  range (sortKeys (map_keys m))
    (λ key, match m !! key with Some v => body key v | None => write EmptyString end).

(** The comparison function [eq] of the template, on strings, and the truth
    of a string in [{{if}}]: not empty. *)
Module Tmpl.
Definition eq (a b : string) : bool := String.eqb a b.
Definition truth (s : string) : bool := negb (String.eqb s EmptyString).
End Tmpl.

(** The text of [codeTemplate] is copied with a back quote wherever the Go
    source has a double quote (a Go raw string contains no back quote);
    [tpl] puts the double quotes back. *)
Definition tpl : string → string :=
  Go.Map (λ c, if Ascii.eqb c "`"%char then "034"%char else c).

Definition nl : string := String "010"%char EmptyString.

(** *** The text of the template

    Text next to an action written [{{- ...]  or [... -}}] loses its white
    space on that side; the text nodes below are the trimmed ones, in the
    order of the template, and a text node that is all white space and
    trimmed away is left out. *)

(** Lines 28-40, up to the range over [.Definitions]. *)
Definition text_head : string := tpl
"// tslint:disable
/* Code generated by openapi-gen/main.go. DO NOT EDIT. */

const BASE_PATH = `http://127.0.0.1:80`;

export interface ConfigurationParameters {
  basePath?: string;
  username?: string;
  password?: string;
  bearerToken?: string;
  timeoutMs?: number;
}".

(** Lines 79-138, from the end of the definitions to the range over
    [.Paths]: the [NakamaApi] factory and its [doFetch]. *)
Definition text_factory : string := tpl
"

export const NakamaApi = (configuration: ConfigurationParameters = {
  basePath: BASE_PATH,
  bearerToken: ``,
  password: ``,
  username: ``,
  timeoutMs: 5000,
}) => {
  const napi = {
    /** Perform the underlying Fetch operation and return Promise object **/
    doFetch(urlPath: string, method: string, queryParams: any, body?: any, options?: any): Promise<any> {
      const urlQuery = `?` + Object.keys(queryParams)
        .map(k => {
          if (queryParams[k] instanceof Array) {
            return queryParams[k].reduce((prev: any, curr: any) => {
              return prev + encodeURIComponent(k) + `=` + encodeURIComponent(curr) + `&`;
            }, ``);
          } else {
            if (queryParams[k] != null) {
              return encodeURIComponent(k) + `=` + encodeURIComponent(queryParams[k]) + `&`;
            }
          }
        })
        .join(``);

      const fetchOptions = {...{ method: method /*, keepalive: true */ }, ...options};
      fetchOptions.headers = {...options.headers};
      if (configuration.bearerToken) {
        fetchOptions.headers[`Authorization`] = `Bearer ` + configuration.bearerToken;
      } else if (configuration.username) {
        fetchOptions.headers[`Authorization`] = `Basic ` + btoa(configuration.username + `:` + configuration.password);
      }
      if(!Object.keys(fetchOptions.headers).includes(`Accept`)) {
        fetchOptions.headers[`Accept`] = `application/json`;
      }
      if(!Object.keys(fetchOptions.headers).includes(`Content-Type`)) {
        fetchOptions.headers[`Content-Type`] = `application/json`;
      }
      Object.keys(fetchOptions.headers).forEach((key: string) => {
        if(!fetchOptions.headers[key]) {
          delete fetchOptions.headers[key];
        }
      });
      fetchOptions.body = body;

      return Promise.race([
        fetch(configuration.basePath + urlPath + urlQuery, fetchOptions).then((response) => {
          if (response.status >= 200 && response.status < 300) {
            return response.json();
          } else {
            throw response;
          }
        }),
        new Promise((_, reject) =>
          setTimeout(reject, configuration.timeoutMs, `Request timed out.`)
        ),
      ]);
    },".

(** Lines 199-203, after the range over [.Paths]. *)
Definition text_tail : string := tpl
"
  };

  return napi;
};
".

(** *** Pass over the definitions (lines 41-79) *)

(** The pipeline [$property.AdditionalProperties | cleanRef] of line 70 hands
    a struct to [convertRefToClassName], which takes a string: the call is
    refused when the template runs. *)
Definition cleanRef_of_struct : Exec :=
  throw (wrong_type_for_value "string" "struct { Type string }").

(** Lines 45-76: one property of a definition. *)
Definition exec_property (fieldname : string) (property : Property.t) : Exec :=
  write (nl +:+ "  // ") >>> write (Property.Description property) >>>
  if Tmpl.eq (Property.Type_ property) "integer" then
    write (nl +:+ "  ") >>> write fieldname >>> write "?: number;"
  else if Tmpl.eq (Property.Type_ property) "number" then
    write (nl +:+ "  ") >>> write fieldname >>> write "?: number;"
  else if Tmpl.eq (Property.Type_ property) "boolean" then
    write (nl +:+ "  ") >>> write fieldname >>> write "?: boolean;"
  else if Tmpl.eq (Property.Type_ property) "array" then
    if Tmpl.eq (PropertyItems.Type_ (Property.Items property)) "string" then
      write (nl +:+ "  ") >>> write fieldname >>> write "?: Array<string>;"
    else if Tmpl.eq (PropertyItems.Type_ (Property.Items property)) "integer" then
      write (nl +:+ "  ") >>> write fieldname >>> write "?: Array<number>;"
    else if Tmpl.eq (PropertyItems.Type_ (Property.Items property)) "boolean" then
      write (nl +:+ "  ") >>> write fieldname >>> write "?: Array<boolean>;"
    else
      write (nl +:+ "  ") >>> write fieldname >>> write "?: Array<" >>>
      write (convertRefToClassName (PropertyItems.Ref (Property.Items property))) >>>
      write ">;"
  else if Tmpl.eq (Property.Type_ property) "object" then
    if Tmpl.eq (AdditionalProperties.Type_ (Property.AdditionalProperties property)) "string" then
      write (nl +:+ "  ") >>> write fieldname >>> write "?: Map<string, string>;"
    else if Tmpl.eq (AdditionalProperties.Type_ (Property.AdditionalProperties property)) "integer" then
      write (nl +:+ "  ") >>> write fieldname >>> write "?: Map<string, integer>;"
    else if Tmpl.eq (AdditionalProperties.Type_ (Property.AdditionalProperties property)) "boolean" then
      write (nl +:+ "  ") >>> write fieldname >>> write "?: Map<string, boolean>;"
    else
      write (nl +:+ "  ") >>> write fieldname >>> write "?: Map<" >>>
      cleanRef_of_struct >>>
      write ">;"
  else if Tmpl.eq (Property.Type_ property) "string" then
    write (nl +:+ "  ") >>> write fieldname >>> write "?: string;"
  else
    write (nl +:+ "  ") >>> write fieldname >>> write "?: " >>>
    write (convertRefToClassName (Property.Ref property)) >>>
    write ";".

(** *** Pass over the operations (lines 138-199) *)

(** [{{- if not $parameter.Required }}?{{- end}}]. *)
Definition optional_mark (parameter : Param.t) : Exec :=
  if negb (Param.Required parameter) then write "?" else write EmptyString.

(** The field chain [$parameter.AdditionalProperties.Type] of line 155: the
    parameter struct has no field of that name, so evaluating it fails. *)
Definition parameter_AdditionalProperties_Type : Exec :=
  throw (cant_evaluate_field "AdditionalProperties").

(** Lines 143-161: one parameter in the argument list. *)
Definition exec_argument (parameter : Param.t) : Exec :=
  let camelcase := snakeCaseToCamelCase (Param.Name parameter) in
  (if Tmpl.eq (Param.In parameter) "path" then
     write camelcase >>> optional_mark parameter >>> write ": " >>>
     write (Param.Type_ parameter) >>> write ","
   else if Tmpl.eq (Param.In parameter) "body" then
     if Tmpl.eq (ParamSchema.Type_ (Param.Schema parameter)) "string" then
       write camelcase >>> optional_mark parameter >>> write ": " >>>
       write (ParamSchema.Type_ (Param.Schema parameter)) >>> write ","
     else
       write camelcase >>> optional_mark parameter >>> write ": " >>>
       write (convertRefToClassName (ParamSchema.Ref (Param.Schema parameter))) >>>
       write ","
   else if Tmpl.eq (Param.Type_ parameter) "array" then
     write camelcase >>> optional_mark parameter >>> write ": Array<" >>>
     write (ParamItems.Type_ (Param.Items parameter)) >>> write ">,"
   else if Tmpl.eq (Param.Type_ parameter) "object" then
     write camelcase >>> optional_mark parameter >>> write ": Map<" >>>
     parameter_AdditionalProperties_Type >>> write ">,"
   else if Tmpl.eq (Param.Type_ parameter) "integer" then
     write camelcase >>> optional_mark parameter >>> write ": number,"
   else
     write camelcase >>> optional_mark parameter >>> write ": " >>>
     write (Param.Type_ parameter) >>> write ",")
  >>> write " ".

(** Lines 140-162: the comment, the method name, the argument list and the
    return type. *)
Definition exec_signature (operation : Operation.t) : Exec :=
  let ref := ResponseSchema.Ref (ResponseOk.Schema (Responses.Ok (Operation.Responses operation))) in
  write (nl +:+ "    /** ") >>> write (Operation.Summary operation) >>>
  write (" */" +:+ nl +:+ "    ") >>>
  write (snakeCaseToCamelCase (Operation.OperationId operation)) >>> write "(" >>>
  range (Operation.Parameters operation) exec_argument >>>
  write "options: any = {}): Promise<" >>>
  (if Tmpl.truth (convertRefToClassName ref)
   then write (convertRefToClassName ref)
   else write "any") >>>
  write "> {".

(** Lines 164-169: the check of a required parameter. *)
Definition exec_required_check (parameter : Param.t) : Exec :=
  let camelcase := snakeCaseToCamelCase (Param.Name parameter) in
  if Param.Required parameter then
    write (nl +:+ "      if (") >>> write camelcase >>> write " === null || " >>>
    write camelcase >>>
    write (" === undefined) {" +:+ nl +:+ tpl "        throw new Error(`'") >>>
    write camelcase >>>
    write (tpl "' is a required parameter but is null or undefined.`);" +:+ nl +:+ "      }")
  else write EmptyString.

(** Lines 173-176: a path parameter substituted in the URL. *)
Definition exec_path_replace (parameter : Param.t) : Exec :=
  let camelcase := snakeCaseToCamelCase (Param.Name parameter) in
  if Tmpl.eq (Param.In parameter) "path" then
    write (nl +:+ tpl "         .replace(`") >>>
    write ("{" +:+ Param.Name parameter +:+ "}") >>>
    write (tpl "`, encodeURIComponent(String(") >>> write camelcase >>> write ")))"
  else write EmptyString.

(** Lines 181-184: a query parameter in [queryParams]. *)
Definition exec_query_entry (parameter : Param.t) : Exec :=
  let camelcase := snakeCaseToCamelCase (Param.Name parameter) in
  if Tmpl.eq (Param.In parameter) "query" then
    write (nl +:+ "        ") >>> write (Param.Name parameter) >>> write ": " >>>
    write camelcase >>> write ","
  else write EmptyString.

(** Lines 190-193: a body parameter serialized into [_body]. *)
Definition exec_body_assign (parameter : Param.t) : Exec :=
  let camelcase := snakeCaseToCamelCase (Param.Name parameter) in
  if Tmpl.eq (Param.In parameter) "body" then
    write (nl +:+ "      _body = JSON.stringify(") >>> write camelcase >>> write " || {});"
  else write EmptyString.

(** Line 196: the call of the dispatcher, which ends the method. *)
Definition exec_dispatch (method : string) : Exec :=
  write (nl +:+ nl +:+ tpl "      return napi.doFetch(urlPath, `") >>>
  write (Go.ToUpper method) >>>
  write (tpl "`, queryParams, _body, options)" +:+ nl +:+ "    },").

(** Lines 171-196: the path, the query parameters and the body of the
    request, and the call. *)
Definition exec_wiring (url method : string) (parameters : list Param.t) : Exec :=
  write (nl +:+ tpl "      const urlPath = `") >>> write url >>> write (tpl "`") >>>
  range parameters exec_path_replace >>>
  write (";" +:+ nl +:+ nl +:+ "      const queryParams = {") >>>
  range parameters exec_query_entry >>>
  write (nl +:+ "      } as any;" +:+ nl +:+ nl +:+ "      let _body = null;") >>>
  range parameters exec_body_assign >>>
  exec_dispatch method.

(** Lines 163-197: the body of the method. *)
Definition exec_body (url method : string) (operation : Operation.t) : Exec :=
  range (Operation.Parameters operation) exec_required_check >>>
  exec_wiring url method (Operation.Parameters operation).

(** Lines 140-197: one operation. *)
Definition exec_operation (url method : string) (operation : Operation.t) : Exec :=
  exec_signature operation >>> exec_body url method operation.

(** *** The whole template *)

Section Execute.
Context `{MapKeys}.

(** Lines 42-78: one definition. *)
Definition exec_definition (classname : string) (definition : Defn.t) : Exec :=
  write (nl +:+ "/** ") >>> write (Defn.Description definition) >>>
  write (" */" +:+ nl +:+ "export interface ") >>>
  write (Go.Title classname) >>> write " {" >>>
  range_map (Defn.Properties definition) exec_property >>>
  write (nl +:+ "}").

Definition exec_definitions (schema : Schema.t) : Exec :=
  range_map (Schema.Definitions schema) exec_definition.

Definition exec_paths (schema : Schema.t) : Exec :=
  range_map (Schema.Paths schema)
    (λ url path, range_map path (λ method operation, exec_operation url method operation)).

(** [tmpl.Execute (w, schema)]. *)
Definition Execute (schema : Schema.t) : Exec :=
  write text_head >>>
  exec_definitions schema >>>
  write text_factory >>>
  exec_paths schema >>>
  write text_tail.

(** What [main] leaves in its output: the error of [Execute] is dropped. *)
Definition main_output (schema : Schema.t) : string := written (Execute schema).

End Execute.


(** * The vocabulary of the properties *)

(** ** Orders of iteration

    The keys as [map_to_list] enumerates them, and the same backwards. *)
Definition keys_in_order : MapKeys :=
  {| map_keys V m := (map_to_list m).*1;
     map_keys_perm V m := reflexivity _ |}.

Definition keys_reversed : MapKeys :=
  {| map_keys V m := reverse (map_to_list m).*1;
     map_keys_perm V m := reverse_Permutation _ |}.

(** ** Names *)

Fixpoint all_chars (p : ascii → bool) (s : string) : bool :=
  match s with
  | EmptyString => true
  | String c s' => p c && all_chars p s'
  end.

Definition is_underscore (c : ascii) : bool := Ascii.eqb c Go.underscore.

(** Lowercase ASCII letters, digits and underscores. *)
Definition snake_char (c : ascii) : bool :=
  Go.is_lower c || Go.is_digit c || is_underscore c.
Definition snake_case (s : string) : bool := all_chars snake_char s.

Definition no_underscore (s : string) : bool :=
  all_chars (λ c, negb (is_underscore c)) s.

Definition starts_with_underscore (s : string) : bool :=
  match s with
  | String c _ => is_underscore c
  | EmptyString => false
  end.

(** No underscore is followed at once by another one. *)
Fixpoint single_underscores (s : string) : bool :=
  match s with
  | String a s' =>
      negb (is_underscore a && starts_with_underscore s') && single_underscores s'
  | EmptyString => true
  end.

(** Letters, digits and underscores: the runes that [strings.Title] does not
    take for separators. *)
Definition word_char (c : ascii) : bool :=
  Go.is_digit c || Go.is_lower c || Go.is_upper c || is_underscore c.

(** The loop of [snakeCaseToCamelCase] from index 1 on, read off without its
    accumulator. *)
Fixpoint camel_tail (isToUpper : bool) (s : string) : string :=
  match s with
  | EmptyString => EmptyString
  | String v s' =>
      if isToUpper then String (Go.rune_ToUpper v) (camel_tail false s')
      else if is_underscore v then camel_tail true s'
      else String v (camel_tail false s')
  end.

(** [contains sub s]: [sub] occurs in [s]. *)
Fixpoint contains (sub s : string) : bool :=
  Go.HasPrefix s sub
  || match s with
     | EmptyString => false
     | String _ s' => contains sub s'
     end.

(** ** Texts *)

(** The texts of the elements of a list, one after the other. *)
Fixpoint concat_map {A} (f : A → string) (l : list A) : string :=
  match l with
  | [] => EmptyString
  | x :: l' => f x +:+ concat_map f l'
  end.

(** The type tags that lines 46-73 know. *)
Definition known_type_tag (tag : string) : bool :=
  Tmpl.eq tag "integer" || Tmpl.eq tag "number" || Tmpl.eq tag "boolean"
  || Tmpl.eq tag "string" || Tmpl.eq tag "array" || Tmpl.eq tag "object".

(** The name of a parameter in the generated method. *)
Definition argument_name (parameter : Param.t) : string :=
  snakeCaseToCamelCase (Param.Name parameter).

Definition optional_mark_text (parameter : Param.t) : string :=
  if Param.Required parameter then EmptyString else "?".

(** The statement that lines 166-168 write for a required parameter. *)
Definition required_check_text (name : string) : string :=
  nl +:+ "      if (" +:+ name +:+ " === null || " +:+ name +:+ " === undefined) {"
  +:+ nl +:+ tpl "        throw new Error(`'" +:+ name
  +:+ tpl "' is a required parameter but is null or undefined.`);"
  +:+ nl +:+ "      }".

(** The checks of a list of parameters: one statement for each required
    one. *)
Definition required_checks (parameters : list Param.t) : string :=
  concat_map
    (λ p, if Param.Required p then required_check_text (argument_name p) else EmptyString)
    parameters.

(** The call that ends every method (line 196). *)
Definition dispatch_text (method : string) : string :=
  nl +:+ nl +:+ tpl "      return napi.doFetch(urlPath, `" +:+ Go.ToUpper method
  +:+ tpl "`, queryParams, _body, options)" +:+ nl +:+ "    },".

(** The return type of line 162: the class of the 200 response, or [any]. *)
Definition return_type (operation : Operation.t) : string :=
  let name := convertRefToClassName
    (ResponseSchema.Ref (ResponseOk.Schema (Responses.Ok (Operation.Responses operation)))) in
  if Tmpl.truth name then name else "any".

(** ** The two places where the template can fail *)

(** Line 70 is reached by a property tagged [object] whose
    [additionalProperties] are tagged neither string, nor integer, nor
    boolean. *)
Definition reaches_line_70 (property : Property.t) : bool :=
  let values := AdditionalProperties.Type_ (Property.AdditionalProperties property) in
  Tmpl.eq (Property.Type_ property) "object"
  && negb (Tmpl.eq values "string") && negb (Tmpl.eq values "integer")
  && negb (Tmpl.eq values "boolean").

(** Line 155 is reached by a parameter that is neither in the path nor in
    the body and is tagged [object]. *)
Definition reaches_line_155 (parameter : Param.t) : bool :=
  negb (Tmpl.eq (Param.In parameter) "path") && negb (Tmpl.eq (Param.In parameter) "body")
  && Tmpl.eq (Param.Type_ parameter) "object".

(** ** References *)

(** A reference resolves in a schema when it is the definitions prefix
    followed by the key of one of its definitions. *)
Definition resolves (schema : Schema.t) (ref : string) : bool :=
  Go.HasPrefix ref definitions_prefix
  && bool_decide (is_Some (Schema.Definitions schema
                             !! Go.TrimPrefix ref definitions_prefix)).

Definition response (ref : string) : Responses.t :=
  {| Responses.Ok := {| ResponseOk.Schema := {| ResponseSchema.Ref := ref |} |} |}.

(** The same schema with every reference string replaced: [f] is applied to
    the references of the properties and of their items, of the body
    parameters and of the 200 responses. *)
Section Retarget.
Variable f : string → string.

Definition retarget_property (property : Property.t) : Property.t :=
  {| Property.Type_ := Property.Type_ property;
     Property.Ref := f (Property.Ref property);
     Property.Items :=
       {| PropertyItems.Type_ := PropertyItems.Type_ (Property.Items property);
          PropertyItems.Ref := f (PropertyItems.Ref (Property.Items property)) |};
     Property.AdditionalProperties := Property.AdditionalProperties property;
     Property.Format := Property.Format property;
     Property.Description := Property.Description property |}.

Definition retarget_definition (definition : Defn.t) : Defn.t :=
  {| Defn.Properties := retarget_property <$> Defn.Properties definition;
     Defn.Description := Defn.Description definition |}.

Definition retarget_parameter (parameter : Param.t) : Param.t :=
  {| Param.Name := Param.Name parameter;
     Param.In := Param.In parameter;
     Param.Required := Param.Required parameter;
     Param.Type_ := Param.Type_ parameter;
     Param.Items := Param.Items parameter;
     Param.Schema :=
       {| ParamSchema.Type_ := ParamSchema.Type_ (Param.Schema parameter);
          ParamSchema.Ref := f (ParamSchema.Ref (Param.Schema parameter)) |} |}.

Definition retarget_operation (operation : Operation.t) : Operation.t :=
  {| Operation.Summary := Operation.Summary operation;
     Operation.OperationId := Operation.OperationId operation;
     Operation.Responses :=
       response (f (ResponseSchema.Ref
                      (ResponseOk.Schema (Responses.Ok (Operation.Responses operation)))));
     Operation.Parameters := retarget_parameter <$> Operation.Parameters operation |}.

Definition retarget_schema (schema : Schema.t) : Schema.t :=
  {| Schema.Paths :=
       (λ path : gmap string Operation.t, retarget_operation <$> path)
         <$> Schema.Paths schema;
     Schema.Definitions := retarget_definition <$> Schema.Definitions schema |}.
End Retarget.

(** ** Sample documents *)

Definition mk_property (tag ref values description : string) : Property.t :=
  {| Property.Type_ := tag;
     Property.Ref := ref;
     Property.Items := {| PropertyItems.Type_ := EmptyString; PropertyItems.Ref := EmptyString |};
     Property.AdditionalProperties := {| AdditionalProperties.Type_ := values |};
     Property.Format := EmptyString;
     Property.Description := description |}.

Definition mk_parameter (name location : string) (required : bool) (tag : string) : Param.t :=
  {| Param.Name := name; Param.In := location; Param.Required := required;
     Param.Type_ := tag;
     Param.Items := {| ParamItems.Type_ := EmptyString |};
     Param.Schema := {| ParamSchema.Type_ := EmptyString; ParamSchema.Ref := EmptyString |} |}.

(** [{"type": "object", "additionalProperties": {"type": "integer"}}]. *)
Definition scores_property : Property.t :=
  mk_property "object" "" "integer" "Scores by player.".

(** [{"$ref": ref}]. *)
Definition untagged_property (ref : string) : Property.t :=
  mk_property "" ref "" "The owner.".

Definition owner_property : Property.t := untagged_property "#/definitions/user".

(** [{"type": "object"}]. *)
Definition vars_property : Property.t :=
  mk_property "object" "" "" "Session variables.".

Definition id_parameter : Param.t := mk_parameter "id" "path" true "string".
Definition filter_parameter : Param.t := mk_parameter "filter" "query" false "object".
Definition limit_parameter : Param.t := mk_parameter "page_limit" "header" false "integer".
Definition token_parameter : Param.t := mk_parameter "session_token" "header" true "string".

(** The operation of the second end-to-end scenario of the spec. *)
Definition get_user : Operation.t :=
  {| Operation.Summary := "Fetch a user.";
     Operation.OperationId := "get_user";
     Operation.Responses := response "#/definitions/account";
     Operation.Parameters := [id_parameter] |}.

Definition list_items : Operation.t :=
  {| Operation.Summary := "List items.";
     Operation.OperationId := "list_items";
     Operation.Responses := response "";
     Operation.Parameters := [filter_parameter] |}.

Definition empty_schema : Schema.t := {| Schema.Paths := ∅; Schema.Definitions := ∅ |}.

(** A document whose only definition, [account], refers to a definition
    [user] that it does not have. *)
Definition dangling_schema : Schema.t :=
  {| Schema.Paths := ∅;
     Schema.Definitions :=
       {[ "account" := {| Defn.Properties := {[ "owner" := owner_property ]};
                          Defn.Description := "An account." |} ]} |}.

(** A document with one definition, [session], whose property [vars] is
    tagged [object] and says nothing of the type of its values. *)
Definition session_schema : Schema.t :=
  {| Schema.Paths := ∅;
     Schema.Definitions :=
       {[ "session" := {| Defn.Properties := {[ "vars" := vars_property ]};
                          Defn.Description := "A session." |} ]} |}.

(** A document with two definitions and two operations on one path. *)
Definition sample_schema : Schema.t :=
  {| Schema.Paths :=
       {[ "/v1/user/{id}" :=
            {[ "get" := get_user;
               "delete" := {| Operation.Summary := "Delete a user.";
                              Operation.OperationId := "delete_user";
                              Operation.Responses := response "";
                              Operation.Parameters := [id_parameter; token_parameter] |} ]} ]};
     Schema.Definitions :=
       {[ "account" := {| Defn.Properties :=
                            {[ "user_id" := mk_property "string" "" "" "The id.";
                               "scores" := scores_property;
                               "owner" := owner_property ]};
                          Defn.Description := "An account." |};
          "user" := {| Defn.Properties := {[ "name" := mk_property "string" "" "" "The name." ]};
                       Defn.Description := "A user." |} ]} |}.

(** * The driver

    [main], with what it asks of the outside as parameters: [ReadFile] gives
    the content of a file or the text of an error, [Unmarshal] the schema
    that [json.Unmarshal] decodes or the text of its error, [Create] the
    text of the error of [os.Create] if it fails.  [inputs] is [flag.Args ()]
    and [output] the value of the flag [-output].  [codeTemplate] is a
    constant that [Parse] accepts, so the branch of its error is never
    taken.  What [main] does is the list of its effects, in order; a write
    to the standard output or to the created file is taken to succeed, and
    [Execute_to_File] stands for the buffered writes and the final [Flush]. *)

Inductive Effect : Type :=
  | Printf (text : string)
  | PrintDefaults
  | Execute_to_Stdout (text : string)
  | Created (path : string)
  | Execute_to_File (path text : string).

Section Main.
Context `{MapKeys}.
Variable ReadFile : string → string + string.
Variable Unmarshal : string → Schema.t + string.
Variable Create : string → option string.

Definition main (output : string) (inputs : list string) : list Effect :=
  match inputs with
  | [] => [Printf ("No input file found: []" +:+ nl); PrintDefaults]
  | input :: _ =>
      match ReadFile input with
      | inr err => [Printf ("Unable to read file: " +:+ err +:+ nl)]
      | inl content =>
          match Unmarshal content with
          | inr err =>
              [Printf ("Unable to decode input " +:+ input +:+ " : " +:+ err +:+ nl)]
          | inl schema =>
              if String.length output <? 1 then
                [Execute_to_Stdout (written (Execute schema))]
              else
                match Create output with
                | Some err => [Printf ("Unable to create file " +:+ err)]
                | None =>
                    [Created output; Execute_to_File output (written (Execute schema))]
                end
          end
      end
  end.

End Main.

(** The generated text that a run wrote, to the standard output or to a
    file, and the messages that it printed. *)
Definition generated (effects : list Effect) : list string :=
  omap (λ e, match e with
             | Execute_to_Stdout text | Execute_to_File _ text => Some text
             | _ => None
             end) effects.

Definition messages (effects : list Effect) : list string :=
  omap (λ e, match e with Printf text => Some text | _ => None end) effects.

(** * More vocabulary *)

(** A string without its underscores. *)
Fixpoint strip_underscores (s : string) : string :=
  match s with
  | EmptyString => EmptyString
  | String c s' =>
      if is_underscore c then strip_underscores s' else String c (strip_underscores s')
  end.

(** ASCII text: every byte is below 0x80.  There a rune of the Go loop is a
    byte, [string(input[0])] is the first rune, and [strings.ToLower] and
    [strings.ToUpper] change the letters [A-Z] and [a-z] only, which is what
    [snakeCaseToCamelCase] above does on every byte. *)
Definition is_ascii (c : ascii) : bool := Go.code c <=? 127.
Definition ascii_text (s : string) : bool := all_chars is_ascii s.

(** The target spelling of the four primitive type tags (lines 46-51 and
    72-73). *)
Definition primitive_type_name (tag : string) : option string :=
  if Tmpl.eq tag "integer" then Some "number"
  else if Tmpl.eq tag "number" then Some "number"
  else if Tmpl.eq tag "boolean" then Some "boolean"
  else if Tmpl.eq tag "string" then Some "string"
  else None.

(** The comment and the opening of an interface (lines 42-43). *)
Definition interface_head (classname : string) (definition : Defn.t) : string :=
  nl +:+ "/** " +:+ Defn.Description definition +:+ " */" +:+ nl
  +:+ "export interface " +:+ Go.Title classname +:+ " {".

(** The start of every field (lines 45-75): its comment, its name, the
    optional mark. *)
Definition field_head (fieldname : string) (property : Property.t) : string :=
  nl +:+ "  // " +:+ Property.Description property +:+ nl +:+ "  " +:+ fieldname +:+ "?: ".

Definition in_path (p : Param.t) : bool := Tmpl.eq (Param.In p) "path".
Definition in_query (p : Param.t) : bool := Tmpl.eq (Param.In p) "query".
Definition in_body (p : Param.t) : bool := Tmpl.eq (Param.In p) "body".

(** The line of a path parameter (line 175), of a query parameter (line
    183) and of a body parameter (line 192). *)
Definition path_replace_text (p : Param.t) : string :=
  nl +:+ tpl "         .replace(`{" +:+ Param.Name p +:+ tpl "}`, encodeURIComponent(String("
  +:+ argument_name p +:+ ")))".

Definition query_entry_text (p : Param.t) : string :=
  nl +:+ "        " +:+ Param.Name p +:+ ": " +:+ argument_name p +:+ ",".

Definition body_assign_text (p : Param.t) : string :=
  nl +:+ "      _body = JSON.stringify(" +:+ argument_name p +:+ " || {});".

(** The head of a method (lines 140-141), up to its arguments. *)
Definition method_head (operation : Operation.t) : string :=
  nl +:+ "    /** " +:+ Operation.Summary operation +:+ " */" +:+ nl +:+ "    "
  +:+ snakeCaseToCamelCase (Operation.OperationId operation) +:+ "(".

(** A sample outside: one readable file, holding the empty object, and one
    place where a file can be created. *)
Definition sample_ReadFile (path : string) : string + string :=
  if String.eqb path "api.swagger.json" then inl "{}"
  else inr ("open " +:+ path +:+ ": no such file or directory").
Definition sample_Unmarshal (content : string) : Schema.t + string :=
  if String.eqb content "{}" then inl empty_schema else inr "unexpected end of JSON input".
Definition sample_Create (path : string) : option string :=
  if String.eqb path "api.gen.ts" then None
  else Some ("open " +:+ path +:+ ": permission denied").

(** [{"type": "array", "items": {"type": "number"}}]. *)
Definition numbers_property : Property.t :=
  {| Property.Type_ := "array";
     Property.Ref := EmptyString;
     Property.Items := {| PropertyItems.Type_ := "number"; PropertyItems.Ref := EmptyString |};
     Property.AdditionalProperties := {| AdditionalProperties.Type_ := EmptyString |};
     Property.Format := EmptyString;
     Property.Description := "The scores." |}.

Definition user_id_parameter : Param.t := mk_parameter "user_id" "path" true "integer".

(** [{"name": "account", "in": "body", "schema": {"$ref": "#/definitions/account"}}]. *)
Definition account_parameter : Param.t :=
  {| Param.Name := "account"; Param.In := "body"; Param.Required := false;
     Param.Type_ := EmptyString;
     Param.Items := {| ParamItems.Type_ := EmptyString |};
     Param.Schema := {| ParamSchema.Type_ := EmptyString;
                        ParamSchema.Ref := "#/definitions/account" |} |}.

(** [{"name": "filter", "in": "query", "required": true, "type": "object"}]. *)
Definition required_filter_parameter : Param.t :=
  mk_parameter "filter" "query" true "object".

(** An operation with two required parameters, the second of which is a
    query parameter tagged [object], and a document that has it. *)
Definition search_items : Operation.t :=
  {| Operation.Summary := "Search items.";
     Operation.OperationId := "search_items";
     Operation.Responses := response "";
     Operation.Parameters := [id_parameter; required_filter_parameter] |}.

Definition search_schema : Schema.t :=
  {| Schema.Paths := {[ "/v1/item/{id}" := {[ "get" := search_items ]} ]};
     Schema.Definitions := ∅ |}.

(** * Properties *)

(** ** Strings *)

Lemma append_cons (c : ascii) (s1 s2 : string) :
  String c s1 +:+ s2 = String c (s1 +:+ s2).
Proof. done. Qed.

Lemma append_nil_l (s : string) : EmptyString +:+ s = s.
Proof. done. Qed.

Lemma append_nil_r (s : string) : s +:+ EmptyString = s.
Proof. induction s as [|c s IH]; [done|]. by rewrite append_cons, IH. Qed.

Lemma append_assoc (s1 s2 s3 : string) : (s1 +:+ s2) +:+ s3 = s1 +:+ (s2 +:+ s3).
Proof. induction s1 as [|c s1 IH]; [done|]. by rewrite !append_cons, IH. Qed.

Lemma concat_map_app {A} (f : A → string) (l1 l2 : list A) :
  concat_map f (l1 ++ l2) = concat_map f l1 +:+ concat_map f l2.
Proof.
  induction l1 as [|x l1 IH]; [done|].
  cbn [concat_map app]. by rewrite IH, append_assoc.
Qed.

(** ** Executions *)

Lemma write_write (s1 s2 : string) : write s1 >>> write s2 = write (s1 +:+ s2).
Proof. done. Qed.

Lemma write_nil_andThen (e : Exec) : write EmptyString >>> e = e.
Proof. by destruct e. Qed.

Lemma andThen_assoc (a b c : Exec) : (a >>> b) >>> c = a >>> (b >>> c).
Proof.
  destruct a as [sa [ea|]], b as [sb [eb|]], c as [sc ec]; try done.
  unfold andThen, written, failure. cbn. by rewrite append_assoc.
Qed.

Lemma failure_andThen (a b : Exec) :
  failure (a >>> b) = match failure a with Some err => Some err | None => failure b end.
Proof. by destruct a as [sa [ea|]]. Qed.

Lemma failure_write_andThen (s : string) (e : Exec) : failure (write s >>> e) = failure e.
Proof. done. Qed.

(** An execution that does not fail is the writing of its text. *)
Lemma completes_write (e : Exec) : failure e = None ↔ e = write (written e).
Proof.
  destruct e as [s err]. unfold write, written, failure. cbn.
  split; [by intros ->|by intros [= ->]].
Qed.

(** What the first of two steps wrote starts the text of both. *)
Lemma written_andThen (a b : Exec) :
  ∃ rest, written (a >>> b) = written a +:+ rest.
Proof.
  destruct a as [sa [ea|]].
  - exists EmptyString. cbn. by rewrite append_nil_r.
  - by exists (written b).
Qed.

Lemma range_app {A} (l1 l2 : list A) (body : A → Exec) :
  range (l1 ++ l2) body = range l1 body >>> range l2 body.
Proof.
  induction l1 as [|x l1 IH]; cbn [range app].
  - by rewrite write_nil_andThen.
  - by rewrite IH, andThen_assoc.
Qed.

Lemma range_ext {A} (l : list A) (body1 body2 : A → Exec) :
  (∀ x, x ∈ l → body1 x = body2 x) → range l body1 = range l body2.
Proof.
  induction l as [|x l IH]; intros Hbody; [done|].
  cbn [range]. rewrite Hbody by left. rewrite IH; [done|].
  intros y Hy. apply Hbody. by right.
Qed.

Lemma range_fmap {A B} (h : A → B) (l : list A) (body : B → Exec) :
  range (h <$> l) body = range l (λ x, body (h x)).
Proof. induction l as [|x l IH]; [done|]. cbn [range fmap list_fmap]. by rewrite <- IH. Qed.

(** A range whose body never fails writes the texts of its iterations, one
    after the other. *)
Lemma range_write {A} (l : list A) (body : A → Exec) (text : A → string) :
  (∀ x, x ∈ l → body x = write (text x)) →
  range l body = write (concat_map text l).
Proof.
  induction l as [|x l IH]; intros Hbody; [done|].
  cbn [range concat_map]. rewrite Hbody by left.
  rewrite IH; [done|]. intros y Hy. apply Hbody. by right.
Qed.

Lemma failure_range_ext {A} (l : list A) (body1 body2 : A → Exec) :
  (∀ x, x ∈ l → failure (body1 x) = failure (body2 x)) →
  failure (range l body1) = failure (range l body2).
Proof.
  induction l as [|x l IH]; intros Hbody; [done|].
  cbn [range]. rewrite !failure_andThen, Hbody by left.
  rewrite IH; [done|]. intros y Hy. apply Hbody. by right.
Qed.

(** A range runs to its end exactly when each of its iterations does. *)
Lemma failure_range_None {A} (l : list A) (body : A → Exec) :
  failure (range l body) = None ↔ ∀ x, x ∈ l → failure (body x) = None.
Proof.
  induction l as [|x l IH]; cbn [range].
  - split; [|done]. intros _ x Hx. by apply elem_of_nil in Hx.
  - rewrite failure_andThen. split.
    + intros Hrange y Hy. destruct (failure (body x)) eqn:Hx; [done|].
      apply elem_of_cons in Hy as [->|Hy]; [done|]. by apply IH.
    + intros Hall. rewrite (Hall x) by left. apply IH.
      intros y Hy. apply Hall. by right.
Qed.

Create Rewrite HintDb exec.
#[local] Hint Rewrite write_write append_assoc append_nil_r : exec.

(** Consecutive writes are one write of the texts put end to end. *)
Ltac fuse_writes := autorewrite with exec; reflexivity.

(** Evaluates the comparisons of the template between two constants. *)
Ltac compare_tags :=
  repeat match goal with
  | |- context [Tmpl.eq ?a ?b] =>
      let v := eval vm_compute in (Tmpl.eq a b) in
      match v with
      | true => change (Tmpl.eq a b) with true
      | false => change (Tmpl.eq a b) with false
      end
  end; cbv iota.

(** Splits on the comparisons that guard the branches of the template. *)
Ltac split_branches :=
  repeat match goal with
  | |- context [if Tmpl.eq ?a ?b then _ else _] => destruct (Tmpl.eq a b) eqn:?
  end.

(** ** The naming helpers *)

Lemma camelCase_loop_tail input0 rest : ∀ k camelCase isToUpper,
  camelCase_loop input0 (S k) rest camelCase isToUpper
  = camelCase +:+ camel_tail isToUpper rest.
Proof.
  induction rest as [|v rest IH]; intros k acc flag.
  - cbn. by rewrite append_nil_r.
  - cbn [camelCase_loop camel_tail Nat.eqb].
    destruct flag.
    + rewrite IH. cbn [Go.ToUpper Go.Map]. by rewrite append_assoc.
    + fold (is_underscore v). destruct (is_underscore v).
      * by rewrite IH.
      * rewrite IH. by rewrite append_assoc.
Qed.

(** The first character is only lower-cased; the loop proper starts at the
    second. *)
Lemma snakeCaseToCamelCase_cons (c : ascii) (s : string) :
  snakeCaseToCamelCase (String c s) = String (Go.rune_ToLower c) (camel_tail false s).
Proof.
  unfold snakeCaseToCamelCase. cbn [camelCase_loop Nat.eqb].
  by rewrite camelCase_loop_tail.
Qed.

Lemma rune_ToUpper_underscore (c : ascii) :
  is_underscore (Go.rune_ToUpper c) = is_underscore c.
Proof. by destruct c as [[] [] [] [] [] [] [] []]. Qed.

Lemma rune_ToLower_underscore (c : ascii) :
  is_underscore (Go.rune_ToLower c) = is_underscore c.
Proof. by destruct c as [[] [] [] [] [] [] [] []]. Qed.

Lemma rune_ToLower_idemp (c : ascii) :
  Go.rune_ToLower (Go.rune_ToLower c) = Go.rune_ToLower c.
Proof. by destruct c as [[] [] [] [] [] [] [] []]. Qed.

(** Which underscores survive the loop: one met while [isToUpper] is set. *)
Lemma camel_tail_no_underscore (s : string) : ∀ isToUpper,
  no_underscore (camel_tail isToUpper s)
  = single_underscores s && negb (isToUpper && starts_with_underscore s).
Proof.
  induction s as [|v s IH]; intros flag.
  - by destruct flag.
  - cbn [camel_tail single_underscores starts_with_underscore].
    destruct flag.
    + cbn [no_underscore all_chars]. fold (no_underscore (camel_tail false s)).
      rewrite rune_ToUpper_underscore, IH.
      destruct (is_underscore v), (starts_with_underscore s),
        (single_underscores s); done.
    + destruct (is_underscore v) eqn:Hv.
      * rewrite IH. cbn.
        destruct (starts_with_underscore s), (single_underscores s); done.
      * cbn [no_underscore all_chars]. fold (no_underscore (camel_tail false s)).
        rewrite Hv, IH. cbn.
        destruct (starts_with_underscore s), (single_underscores s); done.
Qed.

(** The output has no underscore exactly when the input neither starts with
    one nor has two in a row. *)
Lemma snakeCaseToCamelCase_no_underscore (s : string) :
  no_underscore (snakeCaseToCamelCase s)
  = negb (starts_with_underscore s) && single_underscores s.
Proof.
  destruct s as [|c s]; [done|].
  rewrite snakeCaseToCamelCase_cons.
  cbn [no_underscore all_chars]. fold (no_underscore (camel_tail false s)).
  rewrite rune_ToLower_underscore, camel_tail_no_underscore.
  cbn. destruct (is_underscore c), (starts_with_underscore s),
    (single_underscores s); done.
Qed.

Lemma camel_tail_fixed (s : string) :
  no_underscore s = true → camel_tail false s = s.
Proof.
  induction s as [|v s IH]; [done|].
  cbn. intros [Hv Hs]%andb_true_iff.
  apply negb_true_iff in Hv. rewrite Hv. by rewrite IH.
Qed.

(** An output without underscore is a fixed point. *)
Lemma snakeCaseToCamelCase_fixed (s : string) :
  no_underscore (snakeCaseToCamelCase s) = true →
  snakeCaseToCamelCase (snakeCaseToCamelCase s) = snakeCaseToCamelCase s.
Proof.
  destruct s as [|c s]; [done|].
  rewrite !snakeCaseToCamelCase_cons.
  cbn [no_underscore all_chars]. intros [_ Ht]%andb_true_iff.
  rewrite rune_ToLower_idemp. by rewrite camel_tail_fixed.
Qed.

(** The examples of the spec. *)
Lemma toCamelCase_examples :
  snakeCaseToCamelCase "user_id" = "userId"
  ∧ snakeCaseToCamelCase "id" = "id"
  ∧ snakeCaseToCamelCase "" = "".
Proof. done. Qed.

(** A leading underscore stays, whatever follows. *)
Lemma toCamelCase_leading_underscore :
  snake_case "_a" = true ∧ snakeCaseToCamelCase "_a" = "_a".
Proof. done. Qed.

(** C4, as the spec states it, fails on the code: ["a__b"] is made of
    lowercase letters and underscores, its camel case ["a_b"] keeps an
    underscore, and applying the function again gives ["aB"]. *)
Lemma toCamelCase_double_underscore :
  snake_case "a__b" = true
  ∧ ¬ (no_underscore (snakeCaseToCamelCase "a__b") = true
       ∧ snakeCaseToCamelCase (snakeCaseToCamelCase "a__b")
         = snakeCaseToCamelCase "a__b").
Proof. split; [done|]. intros [? _]. done. Qed.

(** C4, amended: for every input made of lowercase ASCII letters, digits and
    underscores that does not start with an underscore and has no two
    underscores in a row, the output of [snakeCaseToCamelCase] has no
    underscore and the function maps its output to itself. *)
Theorem toCamelCase_idempotent_no_underscore (s : string) :
  snake_case s = true →
  starts_with_underscore s = false →
  single_underscores s = true →
  no_underscore (snakeCaseToCamelCase s) = true
  ∧ snakeCaseToCamelCase (snakeCaseToCamelCase s) = snakeCaseToCamelCase s.
Proof.
  intros _ Hstart Hsingle.
  assert (no_underscore (snakeCaseToCamelCase s) = true) as Hno.
  { by rewrite snakeCaseToCamelCase_no_underscore, Hstart, Hsingle. }
  split; [done|]. by apply snakeCaseToCamelCase_fixed.
Qed.

(** The amended C4 at ["user_id_2"]. *)
Lemma toCamelCase_idempotent_no_underscore_witness :
  no_underscore (snakeCaseToCamelCase "user_id_2") = true
  ∧ snakeCaseToCamelCase (snakeCaseToCamelCase "user_id_2")
    = snakeCaseToCamelCase "user_id_2".
Proof. apply (toCamelCase_idempotent_no_underscore "user_id_2"); reflexivity. Defined.

(** [strings.Title] on a single word: only its first rune changes. *)
Lemma Title_from_word (s : string) : ∀ prev,
  word_char prev = true → all_chars word_char s = true → Go.Title_from prev s = s.
Proof.
  induction s as [|c s IH]; intros prev Hprev Hs; [done|].
  cbn in Hs. apply andb_true_iff in Hs as [Hc Hs].
  cbn [Go.Title_from].
  assert (Go.isSeparator prev = false) as ->.
  { revert Hprev. by destruct prev as [[] [] [] [] [] [] [] []]. }
  by rewrite IH.
Qed.

Lemma Title_word (c : ascii) (s : string) :
  all_chars word_char (String c s) = true →
  Go.Title (String c s) = String (Go.rune_ToTitle c) s.
Proof.
  cbn. intros [Hc Hs]%andb_true_iff.
  unfold Go.Title. cbn. by rewrite Title_from_word.
Qed.

Lemma TrimPrefix_append (prefix s : string) : Go.TrimPrefix (prefix +:+ s) prefix = s.
Proof.
  unfold Go.TrimPrefix.
  assert (Go.HasPrefix (prefix +:+ s) prefix = true) as ->.
  { induction prefix as [|p prefix IH]; [done|].
    rewrite append_cons. cbn [Go.HasPrefix]. by rewrite Ascii.eqb_refl, IH. }
  induction prefix as [|p prefix IH]; [done|].
  rewrite append_cons. cbn [String.length Go.drop]. apply IH.
Qed.

(** A reference to a definition whose key is one word (letters, digits,
    underscores): the prefix goes and the first rune is capitalised. *)
Lemma convertRefToClassName_word (c : ascii) (s : string) :
  all_chars word_char (String c s) = true →
  convertRefToClassName (definitions_prefix +:+ String c s)
  = String (Go.rune_ToUpper c) s.
Proof.
  intros Hw. unfold convertRefToClassName.
  rewrite TrimPrefix_append. by rewrite Title_word.
Qed.

(** [strings.Title] capitalises after every separator: a dotted key gets
    more than one capital. *)
Lemma convertRefToClassName_dotted :
  convertRefToClassName "#/definitions/api.account" = "Api.Account".
Proof. done. Qed.

(** C3: [convertRefToClassName "#/definitions/leaderboard_record"] is
    ["Leaderboard_record"]: the prefix is stripped, the first character of
    what remains is capitalised, and the rest, the underscore and the
    letters after it included, is unchanged. *)
Theorem refToTypeName_leaderboard_record :
  convertRefToClassName "#/definitions/leaderboard_record" = "Leaderboard_record"
  ∧ Go.TrimPrefix "#/definitions/leaderboard_record" definitions_prefix
    = "leaderboard_record"
  ∧ convertRefToClassName "#/definitions/leaderboard_record"
    = String (Go.rune_ToUpper "l") "eaderboard_record".
Proof. done. Qed.

(** ** The properties of a definition *)

(** A property tagged [object] whose [additionalProperties] are tagged
    [integer] (line 66). *)
Lemma exec_property_map_of_integer (fieldname : string) (property : Property.t) :
  Property.Type_ property = "object" →
  AdditionalProperties.Type_ (Property.AdditionalProperties property) = "integer" →
  exec_property fieldname property
  = write (nl +:+ "  // " +:+ Property.Description property +:+ nl +:+ "  "
           +:+ fieldname +:+ "?: Map<string, integer>;").
Proof.
  intros Htag Hvalues. unfold exec_property. rewrite Htag, Hvalues.
  compare_tags. fuse_writes.
Qed.

(** The sibling branch (line 56): an array of integers is an
    [Array<number>]. *)
Lemma exec_property_array_of_integer (fieldname : string) (property : Property.t) :
  Property.Type_ property = "array" →
  PropertyItems.Type_ (Property.Items property) = "integer" →
  exec_property fieldname property
  = write (nl +:+ "  // " +:+ Property.Description property +:+ nl +:+ "  "
           +:+ fieldname +:+ "?: Array<number>;").
Proof.
  intros Htag Hitems. unfold exec_property. rewrite Htag, Hitems.
  compare_tags. fuse_writes.
Qed.

(** C2: the field of a property tagged [object] with [additionalProperties]
    tagged [integer] should have type [Map<string, number>]; the template
    writes [Map<string, integer>] for it. *)
Theorem map_of_integer_field :
  exec_property "scores" scores_property
  = write (nl +:+ "  // Scores by player." +:+ nl +:+ "  scores?: Map<string, integer>;")
  ∧ exec_property "scores" scores_property
    ≠ write (nl +:+ "  // Scores by player." +:+ nl +:+ "  scores?: Map<string, number>;").
Proof. split; [reflexivity|discriminate]. Qed.

(** C9: a property whose type tag is none of integer, number, boolean,
    string, array, object (the absent tag is the empty string) is written as
    a reference: its field has the type name that [convertRefToClassName]
    makes of its reference; when the reference is empty so is the type name,
    and the field is written all the same. *)
Theorem unknown_type_tag_is_reference (fieldname : string) (property : Property.t) :
  known_type_tag (Property.Type_ property) = false →
  exec_property fieldname property
  = write (nl +:+ "  // " +:+ Property.Description property +:+ nl +:+ "  "
           +:+ fieldname +:+ "?: " +:+ convertRefToClassName (Property.Ref property) +:+ ";")
  ∧ (Property.Ref property = EmptyString →
     exec_property fieldname property
     = write (nl +:+ "  // " +:+ Property.Description property +:+ nl +:+ "  "
              +:+ fieldname +:+ "?: ;")).
Proof.
  unfold known_type_tag. intros Htag.
  repeat (apply orb_false_iff in Htag as [Htag ?]).
  assert (exec_property fieldname property
    = write (nl +:+ "  // " +:+ Property.Description property +:+ nl +:+ "  "
        +:+ fieldname +:+ "?: " +:+ convertRefToClassName (Property.Ref property) +:+ ";"))
    as Hfield.
  { unfold exec_property.
    repeat match goal with H : Tmpl.eq _ _ = false |- _ => rewrite H; clear H end.
    fuse_writes. }
  split; [done|]. intros Href. by rewrite Hfield, Href.
Qed.

(** C9 at a property that is only a reference, to [account] and to
    nothing. *)
Lemma unknown_type_tag_is_reference_witness :
  exec_property "owner" (untagged_property "#/definitions/account")
  = write (nl +:+ "  // The owner." +:+ nl +:+ "  owner?: Account;")
  ∧ exec_property "owner" (untagged_property "")
    = write (nl +:+ "  // The owner." +:+ nl +:+ "  owner?: ;").
Proof.
  split.
  - apply (unknown_type_tag_is_reference "owner" (untagged_property "#/definitions/account")).
    reflexivity.
  - apply (unknown_type_tag_is_reference "owner" (untagged_property "")); reflexivity.
Defined.

(** A property fails exactly when it reaches line 70. *)
Lemma exec_property_failure (fieldname : string) (property : Property.t) :
  failure (exec_property fieldname property) = None ↔ reaches_line_70 property = false.
Proof.
  unfold exec_property, reaches_line_70. rewrite failure_write_andThen.
  destruct (Tmpl.eq (Property.Type_ property) "object") eqn:Hobject.
  - apply String.eqb_eq in Hobject. rewrite Hobject. compare_tags.
    split_branches; done.
  - split_branches; done.
Qed.

(** ** The operations *)

Lemma optional_mark_write (parameter : Param.t) :
  optional_mark parameter = write (optional_mark_text parameter).
Proof. unfold optional_mark, optional_mark_text. by destruct (Param.Required _). Qed.

Lemma exec_required_check_write (parameter : Param.t) :
  exec_required_check parameter
  = write (if Param.Required parameter
           then required_check_text (argument_name parameter) else EmptyString).
Proof.
  unfold exec_required_check, required_check_text, argument_name.
  destruct (Param.Required parameter); [|done]. fuse_writes.
Qed.

Lemma range_required_checks (parameters : list Param.t) :
  range parameters exec_required_check = write (required_checks parameters).
Proof. apply range_write. intros p _. apply exec_required_check_write. Qed.

Lemma required_checks_app (l1 l2 : list Param.t) :
  required_checks (l1 ++ l2) = required_checks l1 +:+ required_checks l2.
Proof. apply concat_map_app. Qed.

Lemma exec_dispatch_write (method : string) :
  exec_dispatch method = write (dispatch_text method).
Proof. unfold exec_dispatch, dispatch_text. fuse_writes. Qed.

Lemma exec_path_replace_completes (parameter : Param.t) :
  exec_path_replace parameter = write (written (exec_path_replace parameter)).
Proof. unfold exec_path_replace. by destruct (Tmpl.eq _ _). Qed.

Lemma exec_query_entry_completes (parameter : Param.t) :
  exec_query_entry parameter = write (written (exec_query_entry parameter)).
Proof. unfold exec_query_entry. by destruct (Tmpl.eq _ _). Qed.

Lemma exec_body_assign_completes (parameter : Param.t) :
  exec_body_assign parameter = write (written (exec_body_assign parameter)).
Proof. unfold exec_body_assign. by destruct (Tmpl.eq _ _). Qed.

(** The wiring never fails, and ends with the call of the dispatcher. *)
Lemma exec_wiring_write (url method : string) (parameters : list Param.t) :
  ∃ wiring, exec_wiring url method parameters = write (wiring +:+ dispatch_text method).
Proof.
  unfold exec_wiring.
  rewrite (range_write parameters exec_path_replace (λ p, written (exec_path_replace p)))
    by (intros; apply exec_path_replace_completes).
  rewrite (range_write parameters exec_query_entry (λ p, written (exec_query_entry p)))
    by (intros; apply exec_query_entry_completes).
  rewrite (range_write parameters exec_body_assign (λ p, written (exec_body_assign p)))
    by (intros; apply exec_body_assign_completes).
  rewrite exec_dispatch_write, !write_write.
  eexists. f_equal. rewrite <- !append_assoc. reflexivity.
Qed.

(** The body of a method is always written to its end. *)
Lemma exec_body_completes (url method : string) (operation : Operation.t) :
  failure (exec_body url method operation) = None.
Proof.
  unfold exec_body. rewrite range_required_checks.
  by destruct (exec_wiring_write url method (Operation.Parameters operation)) as [wiring ->].
Qed.

(** Every branch of lines 144-160 starts the argument with its camel-case
    name and the optional mark. *)
Lemma exec_argument_name (parameter : Param.t) :
  ∃ rest, written (exec_argument parameter)
          = argument_name parameter +:+ optional_mark_text parameter +:+ ": " +:+ rest.
Proof.
  unfold exec_argument, argument_name. rewrite optional_mark_write.
  set (name := snakeCaseToCamelCase (Param.Name parameter)).
  set (mark := optional_mark_text parameter).
  split_branches;
    unfold parameter_AdditionalProperties_Type, throw, andThen, write, written, failure;
    cbn [fst snd]; rewrite ?append_assoc.
  - by exists (Param.Type_ parameter +:+ ", ").
  - by exists (ParamSchema.Type_ (Param.Schema parameter) +:+ ", ").
  - by exists (convertRefToClassName (ParamSchema.Ref (Param.Schema parameter)) +:+ ", ").
  - by exists ("Array<" +:+ ParamItems.Type_ (Param.Items parameter) +:+ ">, ").
  - by exists "Map<".
  - by exists "number, ".
  - by exists (Param.Type_ parameter +:+ ", ").
Qed.

(** The body of a method (lines 163-197) for a parameter marked required:
    it has the statement that throws an error naming the parameter by its
    camel-case name, after nothing but the checks of the earlier parameters;
    after the checks comes the wiring, which ends with the call of the
    dispatcher; and that name is the one that starts the argument.  The
    body is reached only when the argument list was written to its end. *)
Lemma required_check_in_body
    (url method : string) (operation : Operation.t) (parameter : Param.t) :
  parameter ∈ Operation.Parameters operation →
  Param.Required parameter = true →
  (∃ earlier later wiring,
     Operation.Parameters operation = earlier ++ parameter :: later
     ∧ exec_body url method operation
       = write (required_checks earlier
                +:+ required_check_text (argument_name parameter)
                +:+ required_checks later
                +:+ wiring +:+ dispatch_text method)
     ∧ exec_wiring url method (Operation.Parameters operation)
       = write (wiring +:+ dispatch_text method))
  ∧ (∃ type_, written (exec_argument parameter)
              = argument_name parameter +:+ ": " +:+ type_).
Proof.
  intros Hin Hrequired. split.
  - apply list_elem_of_split in Hin as (earlier & later & Hparams).
    destruct (exec_wiring_write url method (Operation.Parameters operation))
      as [wiring Hwiring].
    exists earlier, later, wiring. split; [done|]. split; [|done].
    unfold exec_body. rewrite range_required_checks, Hwiring, write_write.
    rewrite Hparams, required_checks_app. unfold required_checks at 2.
    cbn [concat_map]. fold (required_checks later). rewrite Hrequired.
    f_equal. by rewrite !append_assoc.
  - destruct (exec_argument_name parameter) as [rest Hrest].
    exists rest. rewrite Hrest. unfold optional_mark_text. by rewrite Hrequired.
Qed.

(** The method of the second end-to-end scenario of the spec. *)
Lemma get_user_method :
  exec_operation "/v1/user/{id}" "get" get_user = write (tpl
"
    /** Fetch a user. */
    getUser(id: string, options: any = {}): Promise<Account> {
      if (id === null || id === undefined) {
        throw new Error(`'id' is a required parameter but is null or undefined.`);
      }
      const urlPath = `/v1/user/{id}`
         .replace(`{id}`, encodeURIComponent(String(id)));

      const queryParams = {
      } as any;

      let _body = null;

      return napi.doFetch(urlPath, `GET`, queryParams, _body, options)
    },").
Proof. reflexivity. Qed.

(** An argument fails exactly when it reaches line 155. *)
Lemma exec_argument_failure (parameter : Param.t) :
  failure (exec_argument parameter) = None ↔ reaches_line_155 parameter = false.
Proof.
  unfold exec_argument, reaches_line_155. rewrite optional_mark_write.
  destruct (Tmpl.eq (Param.In parameter) "path"); [done|].
  destruct (Tmpl.eq (Param.In parameter) "body").
  { by destruct (Tmpl.eq (ParamSchema.Type_ _) _). }
  destruct (Tmpl.eq (Param.Type_ parameter) "array") eqn:Harray.
  { apply String.eqb_eq in Harray. by rewrite Harray. }
  destruct (Tmpl.eq (Param.Type_ parameter) "object"); [done|].
  by destruct (Tmpl.eq (Param.Type_ parameter) "integer").
Qed.

(** Where no parameter reaches line 155, the argument list is the arguments
    of the parameters and then [options: any = {}], which closes it. *)
Lemma signature_ends_with_options (operation : Operation.t) :
  (∀ p, p ∈ Operation.Parameters operation → reaches_line_155 p = false) →
  exec_signature operation
  = write (nl +:+ "    /** " +:+ Operation.Summary operation +:+ " */" +:+ nl +:+ "    "
           +:+ snakeCaseToCamelCase (Operation.OperationId operation) +:+ "("
           +:+ concat_map (λ p, written (exec_argument p)) (Operation.Parameters operation)
           +:+ "options: any = {}): Promise<" +:+ return_type operation +:+ "> {").
Proof.
  intros Hparams. unfold exec_signature, return_type.
  rewrite (range_write _ exec_argument (λ p, written (exec_argument p))).
  2:{ intros p Hp. apply completes_write, exec_argument_failure. by apply Hparams. }
  destruct (Tmpl.truth _); fuse_writes.
Qed.

(** An operation fails where its argument list does. *)
Lemma failure_exec_operation (url method : string) (operation : Operation.t) :
  failure (exec_operation url method operation)
  = failure (range (Operation.Parameters operation) exec_argument).
Proof.
  unfold exec_operation. rewrite failure_andThen, exec_body_completes.
  unfold exec_signature. rewrite !failure_write_andThen, failure_andThen.
  destruct (failure (range _ exec_argument)); [done|].
  by destruct (Tmpl.truth _).
Qed.

(** C7: the argument list of every generated method should end with
    [options: any = {}].  For an operation with a query parameter tagged
    [object] the template stops inside the argument list, at the field that
    the parameter struct does not have, and [options] is never written. *)
Theorem options_argument_lost_after_map_parameter :
  exec_signature list_items
  = (nl +:+ "    /** List items. */" +:+ nl +:+ "    listItems(filter?: Map<",
     Some (cant_evaluate_field "AdditionalProperties"))
  ∧ exec_operation "/v1/item" "get" list_items = exec_signature list_items
  ∧ contains "options: any = {}" (written (exec_operation "/v1/item" "get" list_items))
    = false.
Proof. split; [reflexivity|]. split; reflexivity. Qed.

(** C6: every required parameter of every operation should be checked in
    the body of its method before the dispatcher is called.  In
    [search_items] both parameters are required; the second is a query
    parameter tagged [object], the template stops at it inside the argument
    list, and the body is never written: the output has no check, neither
    of [filter] nor of [id], and no call of the dispatcher. *)
Theorem required_check_lost_after_map_parameter :
  Operation.Parameters search_items = [id_parameter; required_filter_parameter]
  ∧ Param.Required id_parameter = true
  ∧ Param.Required required_filter_parameter = true
  ∧ exec_operation "/v1/item/{id}" "get" search_items
    = (nl +:+ "    /** Search items. */" +:+ nl
       +:+ "    searchItems(id: string, filter: Map<",
       Some (cant_evaluate_field "AdditionalProperties"))
  ∧ @main_output keys_in_order search_schema
    = text_head +:+ text_factory
      +:+ nl +:+ "    /** Search items. */" +:+ nl
      +:+ "    searchItems(id: string, filter: Map<"
  ∧ contains (required_check_text "id") (@main_output keys_in_order search_schema) = false
  ∧ contains (required_check_text "filter") (@main_output keys_in_order search_schema)
    = false
  ∧ contains "is a required parameter" (@main_output keys_in_order search_schema) = false
  ∧ contains "napi.doFetch" (@main_output keys_in_order search_schema) = false.
Proof.
  split; [reflexivity|]. split; [reflexivity|]. split; [reflexivity|].
  split; [reflexivity|]. split; [by vm_compute|]. split; [by vm_compute|].
  split; [by vm_compute|]. split; by vm_compute.
Qed.

(** C8, as the spec states it, fails on the code: a header parameter tagged
    [integer] is neither in the path, nor in the query, nor in the body, and
    its argument is typed [number], not by its bare tag. *)
Lemma header_integer_parameter_is_number :
  Tmpl.eq (Param.In limit_parameter) "path" = false
  ∧ Tmpl.eq (Param.In limit_parameter) "query" = false
  ∧ Tmpl.eq (Param.In limit_parameter) "body" = false
  ∧ exec_argument limit_parameter = write "pageLimit?: number, "
  ∧ exec_argument limit_parameter
    ≠ write ("pageLimit?: " +:+ Param.Type_ limit_parameter +:+ ", ").
Proof.
  split; [reflexivity|]. split; [reflexivity|]. split; [reflexivity|].
  split; [reflexivity|discriminate].
Qed.

(** C8, amended: a parameter whose location is none of path, query, body is
    in the argument list under its camel-case name, typed by its bare type
    tag when the tag is none of array, integer, object, [number] when it is
    integer and [Array<items tag>] when it is array, and in these cases the
    template goes on after it; the path substitution, the query mapping and
    the body serialization write nothing for it, so the wiring of a method is
    the same with the parameter as without it. *)
Theorem parameter_outside_path_query_body (parameter : Param.t) :
  Tmpl.eq (Param.In parameter) "path" = false →
  Tmpl.eq (Param.In parameter) "query" = false →
  Tmpl.eq (Param.In parameter) "body" = false →
  (Tmpl.eq (Param.Type_ parameter) "array" = false →
   Tmpl.eq (Param.Type_ parameter) "integer" = false →
   Tmpl.eq (Param.Type_ parameter) "object" = false →
   exec_argument parameter
   = write (argument_name parameter +:+ optional_mark_text parameter +:+ ": "
            +:+ Param.Type_ parameter +:+ ", "))
  ∧ (Tmpl.eq (Param.Type_ parameter) "integer" = true →
     exec_argument parameter
     = write (argument_name parameter +:+ optional_mark_text parameter +:+ ": number, "))
  ∧ (Tmpl.eq (Param.Type_ parameter) "array" = true →
     exec_argument parameter
     = write (argument_name parameter +:+ optional_mark_text parameter +:+ ": Array<"
              +:+ ParamItems.Type_ (Param.Items parameter) +:+ ">, "))
  ∧ exec_path_replace parameter = write EmptyString
  ∧ exec_query_entry parameter = write EmptyString
  ∧ exec_body_assign parameter = write EmptyString
  ∧ (∀ url method before after,
       exec_wiring url method (before ++ parameter :: after)
       = exec_wiring url method (before ++ after)).
Proof.
  intros Hpath Hquery Hbody.
  assert (exec_path_replace parameter = write EmptyString) as Hp.
  { unfold exec_path_replace. by rewrite Hpath. }
  assert (exec_query_entry parameter = write EmptyString) as Hq.
  { unfold exec_query_entry. by rewrite Hquery. }
  assert (exec_body_assign parameter = write EmptyString) as Hb.
  { unfold exec_body_assign. by rewrite Hbody. }
  refine (conj _ (conj _ (conj _ (conj Hp (conj Hq (conj Hb _)))))).
  - intros Harray Hinteger Hobject.
    unfold exec_argument, argument_name.
    rewrite Hpath, Hbody, Harray, Hinteger, Hobject, optional_mark_write.
    fuse_writes.
  - intros Hinteger.
    assert (Param.Type_ parameter = "integer") as Htag by by apply String.eqb_eq.
    unfold exec_argument, argument_name.
    rewrite Hpath, Hbody, Htag, optional_mark_write. compare_tags.
    fuse_writes.
  - intros Harray.
    unfold exec_argument, argument_name.
    rewrite Hpath, Hbody, Harray, optional_mark_write.
    fuse_writes.
  - intros url method before after. unfold exec_wiring.
    rewrite !(range_app before (parameter :: after)), !(range_app before after).
    cbn [range]. by rewrite Hp, Hq, Hb, !write_nil_andThen.
Qed.

(** The amended C8 at a required header parameter tagged [string]. *)
Lemma parameter_outside_path_query_body_witness :
  exec_argument token_parameter = write "sessionToken: string, "
  ∧ exec_path_replace token_parameter = write EmptyString
  ∧ exec_query_entry token_parameter = write EmptyString
  ∧ exec_body_assign token_parameter = write EmptyString
  ∧ exec_wiring "/v1/user/{id}" "get" [id_parameter; token_parameter]
    = exec_wiring "/v1/user/{id}" "get" [id_parameter].
Proof.
  destruct (parameter_outside_path_query_body token_parameter)
    as (Hbare & _ & _ & Hp & Hq & Hb & Hwiring); try reflexivity.
  refine (conj _ (conj Hp (conj Hq (conj Hb _)))).
  - apply Hbare; reflexivity.
  - exact (Hwiring "/v1/user/{id}" "get" [id_parameter] []).
Defined.

(** ** The order of the output *)

Lemma sortKeys_Permutation (keys1 keys2 : list string) :
  keys1 ≡ₚ keys2 → sortKeys keys1 = sortKeys keys2.
Proof.
  intros Hperm. unfold sortKeys.
  apply (Sorted_unique String.le).
  - apply (Sorted_merge_sort String.le).
  - apply (Sorted_merge_sort String.le).
  - by rewrite !merge_sort_Permutation.
Qed.

(** The keys are visited in increasing order, each once. *)
Lemma sortKeys_sorted (keys : list string) :
  Sorted String.le (sortKeys keys) ∧ sortKeys keys ≡ₚ keys.
Proof.
  split; [apply (Sorted_merge_sort String.le)|apply merge_sort_Permutation].
Qed.

(** There is one such list: how the keys are sorted does not matter. *)
Lemma sortKeys_unique (keys sorted : list string) :
  Sorted String.le sorted → sorted ≡ₚ keys → sorted = sortKeys keys.
Proof.
  intros Hsorted Hperm. apply (Sorted_unique String.le); [done|..].
  - apply sortKeys_sorted.
  - rewrite Hperm. symmetry. apply sortKeys_sorted.
Qed.

(** The keys that a range over a map visits do not depend on the order in
    which the map hands them out. *)
Lemma sortKeys_map_keys (K1 K2 : MapKeys) {V} (m : gmap string V) :
  sortKeys (@map_keys K1 V m) = sortKeys (@map_keys K2 V m).
Proof. apply sortKeys_Permutation. by rewrite !map_keys_perm. Qed.

Lemma range_map_order (K1 K2 : MapKeys) {V} (m : gmap string V)
    (body1 body2 : string → V → Exec) :
  (∀ key v, m !! key = Some v → body1 key v = body2 key v) →
  @range_map K1 V m body1 = @range_map K2 V m body2.
Proof.
  intros Hbody. unfold range_map. rewrite (sortKeys_map_keys K1 K2).
  apply range_ext. intros key _.
  destruct (m !! key) as [v|] eqn:Hkey; [by apply Hbody|done].
Qed.

Lemma exec_definitions_order (K1 K2 : MapKeys) (schema : Schema.t) :
  @exec_definitions K1 schema = @exec_definitions K2 schema.
Proof.
  apply range_map_order. intros classname definition _.
  unfold exec_definition.
  by rewrite (range_map_order K1 K2 (Defn.Properties definition)
                exec_property exec_property).
Qed.

Lemma exec_paths_order (K1 K2 : MapKeys) (schema : Schema.t) :
  @exec_paths K1 schema = @exec_paths K2 schema.
Proof.
  apply range_map_order. intros url path _. by apply range_map_order.
Qed.

(** C5: the text that the template writes for a schema, and whether it
    stops on an error, are the same whatever the order in which the Go maps
    of the schema enumerate their keys: two runs on one document give the
    same output, definitions, fields, paths and methods in the order of
    their sorted keys. *)
Theorem Execute_deterministic (K1 K2 : MapKeys) (schema : Schema.t) :
  @Execute K1 schema = @Execute K2 schema
  ∧ @main_output K1 schema = @main_output K2 schema.
Proof.
  assert (@Execute K1 schema = @Execute K2 schema) as Heq.
  { unfold Execute.
    by rewrite (exec_definitions_order K1 K2), (exec_paths_order K1 K2). }
  split; [done|]. unfold main_output. by rewrite Heq.
Qed.

(** Two orders of iteration on a document with several definitions, fields
    and methods: the keys come out differently and the outputs agree. *)
Lemma sample_schema_orders :
  @map_keys keys_in_order _ (Schema.Definitions sample_schema)
    ≠ @map_keys keys_reversed _ (Schema.Definitions sample_schema)
  ∧ sortKeys (@map_keys keys_reversed _ (Schema.Definitions sample_schema))
    = ["account"; "user"]
  ∧ @Execute keys_in_order sample_schema = @Execute keys_reversed sample_schema.
Proof. split; [by vm_compute|]. split; by vm_compute. Qed.

Section AnyOrder.
Context `{MapKeys}.

Lemma sortKeys_map_keys_fmap {V W} (h : V → W) (m : gmap string V) :
  sortKeys (map_keys (h <$> m)) = sortKeys (map_keys m).
Proof.
  apply sortKeys_Permutation. rewrite !map_keys_perm, map_to_list_fmap.
  rewrite <- list_fmap_compose.
  assert ((fst ∘ prod_map id h) <$> map_to_list m = (map_to_list m).*1) as ->; [|done].
  apply list_fmap_ext. by intros i [key v] _.
Qed.

(** The keys that a range over a map visits are the keys of the map. *)
Lemma elem_of_sortKeys_map_keys {V} (m : gmap string V) (key : string) :
  key ∈ sortKeys (map_keys m) ↔ is_Some (m !! key).
Proof.
  unfold sortKeys. rewrite merge_sort_Permutation, map_keys_perm, list_elem_of_fmap.
  split.
  - intros [[key' v] [-> Hin]]. apply elem_of_map_to_list in Hin. by exists v.
  - intros [v Hv]. exists (key, v). split; [done|]. by apply elem_of_map_to_list.
Qed.

Lemma failure_range_map_fmap {V W} (h : V → W) (m : gmap string V)
    (body1 : string → V → Exec) (body2 : string → W → Exec) :
  (∀ key v, m !! key = Some v → failure (body2 key (h v)) = failure (body1 key v)) →
  failure (range_map (h <$> m) body2) = failure (range_map m body1).
Proof.
  intros Hbody. unfold range_map. rewrite sortKeys_map_keys_fmap.
  apply failure_range_ext. intros key _. rewrite lookup_fmap.
  destruct (m !! key) as [v|] eqn:Hkey; [by apply Hbody|done].
Qed.

(** A range over a map runs to its end exactly when its body does on every
    entry of the map. *)
Lemma failure_range_map_None {V} (m : gmap string V) (body : string → V → Exec) :
  failure (range_map m body) = None
  ↔ ∀ key v, m !! key = Some v → failure (body key v) = None.
Proof.
  unfold range_map. rewrite failure_range_None. split.
  - intros Hall key v Hkey.
    specialize (Hall key). rewrite Hkey in Hall. apply Hall.
    apply elem_of_sortKeys_map_keys. by exists v.
  - intros Hall key _. destruct (m !! key) as [v|] eqn:Hkey; [by apply Hall|done].
Qed.

Lemma range_map_empty {V} (body : string → V → Exec) :
  range_map (∅ : gmap string V) body = write EmptyString.
Proof.
  unfold range_map.
  assert (map_keys (∅ : gmap string V) = []) as ->; [|done].
  apply Permutation_nil_r. by rewrite map_keys_perm, map_to_list_empty.
Qed.

(** *** References *)

Lemma failure_exec_property_retarget (f : string → string) fieldname property :
  failure (exec_property fieldname (retarget_property f property))
  = failure (exec_property fieldname property).
Proof.
  unfold exec_property, retarget_property.
  cbn [Property.Type_ Property.Items Property.AdditionalProperties PropertyItems.Type_].
  split_branches; reflexivity.
Qed.

Lemma failure_exec_argument_retarget (f : string → string) parameter :
  failure (exec_argument (retarget_parameter f parameter))
  = failure (exec_argument parameter).
Proof.
  unfold exec_argument, retarget_parameter. rewrite !optional_mark_write.
  cbn [Param.In Param.Type_ Param.Schema ParamSchema.Type_].
  split_branches; reflexivity.
Qed.

Lemma failure_exec_operation_retarget (f : string → string) url method operation :
  failure (exec_operation url method (retarget_operation f operation))
  = failure (exec_operation url method operation).
Proof.
  rewrite !failure_exec_operation. cbn [retarget_operation Operation.Parameters].
  rewrite range_fmap. apply failure_range_ext.
  intros p _. apply failure_exec_argument_retarget.
Qed.

(** C1, amended: the generator does not resolve references.  No reference
    string, whether or not it names a definition of the document, makes the
    template stop: replacing every reference string of a schema (in the
    properties, in the parameters and in the 200 responses) by any other
    leaves unchanged whether the template runs to its end, and the error it
    stops on. *)
Theorem references_never_abort (f : string → string) (schema : Schema.t) :
  failure (Execute (retarget_schema f schema)) = failure (Execute schema).
Proof.
  unfold Execute. rewrite !failure_write_andThen, !failure_andThen.
  assert (failure (exec_definitions (retarget_schema f schema))
          = failure (exec_definitions schema)) as ->.
  { unfold exec_definitions. cbn [retarget_schema Schema.Definitions].
    apply failure_range_map_fmap. intros classname definition _.
    unfold exec_definition. cbn [retarget_definition Defn.Properties Defn.Description].
    rewrite !failure_write_andThen, !failure_andThen.
    rewrite (failure_range_map_fmap (retarget_property f) _ exec_property exec_property);
      [done|].
    intros fieldname property _. apply failure_exec_property_retarget. }
  destruct (failure (exec_definitions schema)); [done|].
  rewrite ?failure_write_andThen, ?failure_andThen.
  assert (failure (exec_paths (retarget_schema f schema))
          = failure (exec_paths schema)) as ->; [|done].
  unfold exec_paths. cbn [retarget_schema Schema.Paths].
  apply failure_range_map_fmap. intros url path _.
  apply failure_range_map_fmap. intros method operation _.
  apply failure_exec_operation_retarget.
Qed.

(** *** The fixed text around the definitions and the operations *)

(** What the fixed text holds. *)
Lemma fixed_text_contents :
  contains "/* Code generated by openapi-gen/main.go. DO NOT EDIT. */" text_head = true
  ∧ contains (tpl "const BASE_PATH = `http://127.0.0.1:80`;") text_head = true
  ∧ contains "export interface ConfigurationParameters {" text_head = true
  ∧ contains "export const NakamaApi = (configuration: ConfigurationParameters = {"
      text_factory = true
  ∧ contains "doFetch(urlPath: string, method: string, queryParams: any" text_factory
    = true
  ∧ contains "return napi;" text_tail = true.
Proof. repeat (split; [by vm_compute|]). by vm_compute. Qed.

(** With no definition and no path the output is the fixed text alone. *)
Lemma Execute_empty :
  Execute empty_schema = write (text_head +:+ text_factory +:+ text_tail).
Proof.
  unfold Execute, exec_definitions, exec_paths.
  cbn [empty_schema Schema.Definitions Schema.Paths].
  by rewrite !range_map_empty, !write_write.
Qed.

(** Every output starts with the banner, [BASE_PATH] and
    [ConfigurationParameters]. *)
Lemma Execute_starts_with_head (schema : Schema.t) :
  ∃ rest, main_output schema = text_head +:+ rest.
Proof. unfold main_output, Execute. apply (written_andThen (write text_head)). Qed.

(** When the template runs to its end, the output is the fixed text with
    the definitions and the operations in their two places. *)
Lemma Execute_complete (schema : Schema.t) :
  failure (Execute schema) = None →
  Execute schema
  = write (text_head +:+ written (exec_definitions schema) +:+ text_factory
           +:+ written (exec_paths schema) +:+ text_tail).
Proof.
  unfold Execute. rewrite !failure_write_andThen, failure_andThen.
  destruct (exec_definitions schema) as [definitions [err|]]; [done|].
  cbn [failure snd]. rewrite failure_write_andThen, failure_andThen.
  destruct (exec_paths schema) as [paths [err|]]; [done|]. intros _.
  change (definitions, None) with (write definitions).
  change (paths, None) with (write paths).
  by rewrite !write_write.
Qed.

(** *** When the template runs to its end *)

Lemma exec_definition_failure (classname : string) (definition : Defn.t) :
  failure (exec_definition classname definition) = None
  ↔ ∀ fieldname property,
      Defn.Properties definition !! fieldname = Some property →
      reaches_line_70 property = false.
Proof.
  unfold exec_definition. rewrite !failure_write_andThen, failure_andThen.
  assert (failure (range_map (Defn.Properties definition) exec_property) = None
          ↔ ∀ fieldname property,
              Defn.Properties definition !! fieldname = Some property →
              reaches_line_70 property = false) as <-.
  { rewrite failure_range_map_None. split.
    - intros Hall fieldname property Hp.
      by apply (exec_property_failure fieldname), Hall.
    - intros Hall fieldname property Hp. by apply exec_property_failure, (Hall fieldname). }
  by destruct (failure (range_map _ exec_property)).
Qed.

(** The template runs to its end exactly when no property of a definition
    reaches line 70 and no parameter of an operation reaches line 155. *)
Lemma Execute_failure_None (schema : Schema.t) :
  failure (Execute schema) = None
  ↔ (∀ classname definition fieldname property,
       Schema.Definitions schema !! classname = Some definition →
       Defn.Properties definition !! fieldname = Some property →
       reaches_line_70 property = false)
    ∧ (∀ url path method operation parameter,
         Schema.Paths schema !! url = Some path →
         path !! method = Some operation →
         parameter ∈ Operation.Parameters operation →
         reaches_line_155 parameter = false).
Proof.
  unfold Execute. rewrite failure_write_andThen, failure_andThen.
  assert (failure (exec_definitions schema) = None
          ↔ ∀ classname definition fieldname property,
              Schema.Definitions schema !! classname = Some definition →
              Defn.Properties definition !! fieldname = Some property →
              reaches_line_70 property = false) as Hdefinitions.
  { unfold exec_definitions. rewrite failure_range_map_None. split.
    - intros Hall classname definition fieldname property Hd Hp.
      pose proof (Hall classname definition Hd) as Hdefinition.
      rewrite exec_definition_failure in Hdefinition. by apply (Hdefinition fieldname).
    - intros Hall classname definition Hd.
      rewrite exec_definition_failure. intros fieldname property.
      by apply (Hall classname). }
  assert (failure (exec_paths schema) = None
          ↔ ∀ url path method operation parameter,
              Schema.Paths schema !! url = Some path →
              path !! method = Some operation →
              parameter ∈ Operation.Parameters operation →
              reaches_line_155 parameter = false) as Hpaths.
  { unfold exec_paths. rewrite failure_range_map_None. split.
    - intros Hall url path method operation parameter Hpath Hop Hin.
      specialize (Hall url path Hpath). rewrite failure_range_map_None in Hall.
      specialize (Hall method operation Hop).
      rewrite failure_exec_operation, failure_range_None in Hall.
      specialize (Hall parameter Hin). by rewrite exec_argument_failure in Hall.
    - intros Hall url path Hpath. rewrite failure_range_map_None.
      intros method operation Hop.
      rewrite failure_exec_operation, failure_range_None.
      intros parameter Hin. rewrite exec_argument_failure.
      by apply (Hall url path method operation). }
  rewrite <- Hdefinitions, <- Hpaths.
  destruct (failure (exec_definitions schema)).
  - split; [done|]. by intros [? _].
  - rewrite failure_write_andThen, failure_andThen.
    destruct (failure (exec_paths schema)); [|done].
    split; [done|]. by intros [_ ?].
Qed.

End AnyOrder.

(** C1, as the spec states it, fails on the code: the reference of
    [owner] names no definition of the document, and the template runs to
    its end, writing the whole output with a field of type [User]. *)
Lemma unresolved_reference_is_written :
  resolves dangling_schema (Property.Ref owner_property) = false
  ∧ @Execute keys_in_order dangling_schema
    = write (text_head
             +:+ nl +:+ "/** An account. */"
             +:+ nl +:+ "export interface Account {"
             +:+ nl +:+ "  // The owner."
             +:+ nl +:+ "  owner?: User;"
             +:+ nl +:+ "}"
             +:+ text_factory +:+ text_tail).
Proof. split; by vm_compute. Qed.

(** C10: every output should hold the banner, [BASE_PATH],
    [ConfigurationParameters] and the [NakamaApi] factory with [doFetch].
    On [session_schema] the template stops at line 70, where a struct is
    piped into [cleanRef]; [main] writes what was produced so far, which
    ends inside the interface, and the factory is not in the output. *)
Theorem factory_lost_after_untyped_map :
  @Execute keys_in_order session_schema
  = (text_head
     +:+ nl +:+ "/** A session. */"
     +:+ nl +:+ "export interface Session {"
     +:+ nl +:+ "  // Session variables."
     +:+ nl +:+ "  vars?: Map<",
     Some (wrong_type_for_value "string" "struct { Type string }"))
  ∧ contains "export const NakamaApi" (@main_output keys_in_order session_schema) = false
  ∧ contains "export const NakamaApi" (@main_output keys_in_order empty_schema) = true.
Proof. split; [by vm_compute|]. split; by vm_compute. Qed.

(** * More properties *)

(** ** More on the naming helpers *)

Lemma rune_ToLower_ToUpper (c : ascii) :
  Go.rune_ToLower (Go.rune_ToUpper c) = Go.rune_ToLower c.
Proof. by destruct c as [[] [] [] [] [] [] [] []]. Qed.

Lemma strip_underscores_camel_tail (s : string) : ∀ isToUpper,
  strip_underscores (Go.ToLower (camel_tail isToUpper s))
  = strip_underscores (Go.ToLower s).
Proof.
  induction s as [|v s IH]; intros flag; [done|].
  cbn [camel_tail]. destruct flag.
  - cbn [Go.ToLower Go.Map strip_underscores]. fold Go.ToLower.
    rewrite rune_ToLower_ToUpper, !rune_ToLower_underscore, IH. done.
  - cbn [Go.ToLower Go.Map strip_underscores]. fold Go.ToLower.
    rewrite rune_ToLower_underscore.
    destruct (is_underscore v) eqn:Hv; [apply IH|].
    cbn [Go.ToLower Go.Map strip_underscores]. fold Go.ToLower.
    by rewrite rune_ToLower_underscore, Hv, IH.
Qed.

Lemma rune_case_is_ascii (c : ascii) :
  is_ascii (Go.rune_ToLower c) = is_ascii c ∧ is_ascii (Go.rune_ToUpper c) = is_ascii c.
Proof. by destruct c as [[] [] [] [] [] [] [] []]. Qed.

Lemma camel_tail_ascii (s : string) : ∀ isToUpper,
  ascii_text s = true → ascii_text (camel_tail isToUpper s) = true.
Proof.
  unfold ascii_text. induction s as [|v s IH]; intros flag Hs; [done|].
  cbn [all_chars] in Hs. apply andb_true_iff in Hs as [Hv Hs].
  cbn [camel_tail]. destruct flag.
  - cbn [all_chars]. rewrite (proj2 (rune_case_is_ascii v)), Hv. by apply IH.
  - destruct (is_underscore v); [by apply IH|].
    cbn [all_chars]. rewrite Hv. by apply IH.
Qed.

(** X1: on ASCII text [snakeCaseToCamelCase] changes nothing but the case of
    letters and the underscores: its output is ASCII text and, once the
    underscores are taken out and the letters put in lower case, its output
    and its input are the same string. *)
Theorem snakeCaseToCamelCase_case_and_underscores (s : string) :
  ascii_text s = true →
  ascii_text (snakeCaseToCamelCase s) = true
  ∧ strip_underscores (Go.ToLower (snakeCaseToCamelCase s))
    = strip_underscores (Go.ToLower s).
Proof.
  intros Hascii. destruct s as [|c s]; [done|].
  rewrite snakeCaseToCamelCase_cons. split.
  - unfold ascii_text in *. cbn [all_chars] in *.
    apply andb_true_iff in Hascii as [Hc Hs].
    rewrite (proj1 (rune_case_is_ascii c)), Hc. by apply camel_tail_ascii.
  - cbn [Go.ToLower Go.Map strip_underscores]. fold Go.ToLower.
    by rewrite rune_ToLower_idemp, strip_underscores_camel_tail.
Qed.

(** X1 at ["User__id_2"]. *)
Lemma snakeCaseToCamelCase_case_and_underscores_witness :
  ascii_text (snakeCaseToCamelCase "User__id_2") = true
  ∧ strip_underscores (Go.ToLower (snakeCaseToCamelCase "User__id_2"))
    = strip_underscores (Go.ToLower "User__id_2").
Proof. apply (snakeCaseToCamelCase_case_and_underscores "User__id_2"). reflexivity. Defined.

(** X2: for every string, the output of [snakeCaseToCamelCase] has no
    underscore exactly when the input does not start with an underscore and
    has no two underscores in a row. *)
Theorem snakeCaseToCamelCase_underscore_free_iff (s : string) :
  no_underscore (snakeCaseToCamelCase s) = true
  ↔ starts_with_underscore s = false ∧ single_underscores s = true.
Proof.
  rewrite snakeCaseToCamelCase_no_underscore, andb_true_iff, negb_true_iff. done.
Qed.

Lemma camel_tail_length (s : string) : ∀ isToUpper,
  String.length (camel_tail isToUpper s) ≤ String.length s.
Proof.
  induction s as [|v s IH]; intros flag; [done|].
  cbn [camel_tail]. destruct flag.
  - cbn [String.length]. specialize (IH false). lia.
  - destruct (is_underscore v); cbn [String.length].
    + specialize (IH true). lia.
    + specialize (IH false). lia.
Qed.

Lemma camel_tail_unchanged (s : string) :
  camel_tail false s = s ↔ no_underscore s = true.
Proof.
  split; [|apply camel_tail_fixed].
  induction s as [|v s IH]; [done|].
  cbn [camel_tail no_underscore all_chars]. fold (no_underscore s).
  destruct (is_underscore v) eqn:Hv.
  - intros Heq. apply (f_equal String.length) in Heq. cbn [String.length] in Heq.
    pose proof (camel_tail_length s true). lia.
  - intros [= Heq]. by rewrite IH.
Qed.

Lemma rune_ToLower_unchanged (c : ascii) :
  Go.rune_ToLower c = c ↔ Go.is_upper c = false.
Proof. by destruct c as [[] [] [] [] [] [] [] []]. Qed.

(** X3: on ASCII text [snakeCaseToCamelCase] gives back its input exactly
    when the input is empty, or does not start with an uppercase letter and
    has no underscore after its first character. *)
Theorem snakeCaseToCamelCase_unchanged_iff (s : string) :
  ascii_text s = true →
  snakeCaseToCamelCase s = s
  ↔ match s with
    | EmptyString => True
    | String c rest => Go.is_upper c = false ∧ no_underscore rest = true
    end.
Proof.
  intros _. destruct s as [|c s]; [done|].
  rewrite snakeCaseToCamelCase_cons, <- rune_ToLower_unchanged, <- camel_tail_unchanged.
  split; [by intros [= ? ?]|by intros [-> ->]].
Qed.

(** X3 at ["userId"], which is given back, its first letter being in lower
    case and no underscore following it. *)
Lemma snakeCaseToCamelCase_unchanged_iff_witness :
  snakeCaseToCamelCase "userId" = "userId"
  ↔ Go.is_upper "u" = false ∧ no_underscore "serId" = true.
Proof. apply (snakeCaseToCamelCase_unchanged_iff "userId"). reflexivity. Defined.

(** X4: on ASCII text the output of [snakeCaseToCamelCase] is never longer
    than its input, and is empty only for the empty input: a parameter with
    a name has an argument with a name. *)
Theorem snakeCaseToCamelCase_length (s : string) :
  ascii_text s = true →
  String.length (snakeCaseToCamelCase s) ≤ String.length s
  ∧ (snakeCaseToCamelCase s = EmptyString ↔ s = EmptyString).
Proof.
  intros _. destruct s as [|c s]; [done|].
  rewrite snakeCaseToCamelCase_cons. split; [|done].
  cbn [String.length]. pose proof (camel_tail_length s false). lia.
Qed.

(** X4 at ["page_limit"]. *)
Lemma snakeCaseToCamelCase_length_witness :
  String.length (snakeCaseToCamelCase "page_limit") ≤ String.length "page_limit"
  ∧ (snakeCaseToCamelCase "page_limit" = EmptyString ↔ "page_limit" = EmptyString).
Proof. apply (snakeCaseToCamelCase_length "page_limit"). reflexivity. Defined.

Lemma rune_ToUpper_idemp (c : ascii) :
  Go.rune_ToUpper (Go.rune_ToUpper c) = Go.rune_ToUpper c.
Proof. by destruct c as [[] [] [] [] [] [] [] []]. Qed.

Lemma isSeparator_ToUpper (c : ascii) :
  Go.isSeparator (Go.rune_ToUpper c) = Go.isSeparator c.
Proof. by destruct c as [[] [] [] [] [] [] [] []]. Qed.

Lemma rune_ToUpper_not_lower (c : ascii) : Go.is_lower (Go.rune_ToUpper c) = false.
Proof. by destruct c as [[] [] [] [] [] [] [] []]. Qed.

Lemma rune_ToUpper_slash (c : ascii) :
  Ascii.eqb (Go.rune_ToUpper c) "/" = Ascii.eqb c "/".
Proof. by destruct c as [[] [] [] [] [] [] [] []]. Qed.

(** Titling what is titled changes nothing, whatever came before. *)
Lemma Title_from_idemp (s : string) : ∀ prev prev',
  Go.isSeparator prev' = Go.isSeparator prev →
  Go.Title_from prev' (Go.Title_from prev s) = Go.Title_from prev s.
Proof.
  induction s as [|r s IH]; intros prev prev' Hsep; [done|].
  cbn [Go.Title_from]. rewrite Hsep. unfold Go.rune_ToTitle.
  destruct (Go.isSeparator prev).
  - rewrite rune_ToUpper_idemp. f_equal. apply IH. apply isSeparator_ToUpper.
  - f_equal. by apply IH.
Qed.

(** A title never starts with the definitions prefix: the [d] that follows
    the slash would be a capital. *)
Lemma Title_HasPrefix (s : string) :
  Go.HasPrefix (Go.Title s) definitions_prefix = false.
Proof.
  destruct s as [|c0 [|c1 [|c2 s]]]; [done|..].
  - unfold Go.Title. cbn. by rewrite andb_false_r.
  - unfold Go.Title. cbn. by rewrite !andb_false_r.
  - unfold Go.Title. cbn [Go.Title_from definitions_prefix Go.HasPrefix].
    change (Go.isSeparator " ") with true. cbv iota. unfold Go.rune_ToTitle.
    assert (Ascii.eqb (if Go.isSeparator c0 then Go.rune_ToUpper c1 else c1) "/"
            = Ascii.eqb c1 "/") as ->.
    { destruct (Go.isSeparator c0); [apply rune_ToUpper_slash|done]. }
    destruct (Ascii.eqb c1 "/") eqn:Hc1; [|by rewrite andb_false_r].
    apply Ascii.eqb_eq in Hc1 as ->. change (Go.isSeparator "/") with true. cbv iota.
    assert (Ascii.eqb (Go.rune_ToUpper c2) "d" = false) as ->.
    { pose proof (rune_ToUpper_not_lower c2) as Hlow.
      destruct (Ascii.eqb (Go.rune_ToUpper c2) "d") eqn:Hd; [|done].
      apply Ascii.eqb_eq in Hd. by rewrite Hd in Hlow. }
    by rewrite !andb_false_r.
Qed.

(** X5: [convertRefToClassName] maps each of its outputs to itself: a class
    name is its own class name. *)
Theorem convertRefToClassName_idempotent (ref : string) :
  convertRefToClassName (convertRefToClassName ref) = convertRefToClassName ref.
Proof.
  unfold convertRefToClassName at 1.
  assert (Go.TrimPrefix (convertRefToClassName ref) definitions_prefix
          = convertRefToClassName ref) as ->.
  { unfold Go.TrimPrefix, convertRefToClassName. by rewrite Title_HasPrefix. }
  unfold convertRefToClassName, Go.Title. by apply Title_from_idemp.
Qed.

Lemma Title_empty (s : string) : Go.Title s = EmptyString → s = EmptyString.
Proof. by destruct s. Qed.

Lemma HasPrefix_split (prefix : string) : ∀ s,
  Go.HasPrefix s prefix = true → s = prefix +:+ Go.drop (String.length prefix) s.
Proof.
  induction prefix as [|p prefix IH]; intros s; [done|].
  destruct s as [|c s]; [done|].
  cbn [Go.HasPrefix]. intros [Hc Hs]%andb_true_iff.
  apply Ascii.eqb_eq in Hc as ->.
  rewrite append_cons. cbn [String.length Go.drop]. f_equal. by apply IH.
Qed.

Lemma TrimPrefix_empty (s prefix : string) :
  Go.TrimPrefix s prefix = EmptyString → s = EmptyString ∨ s = prefix.
Proof.
  unfold Go.TrimPrefix. destruct (Go.HasPrefix s prefix) eqn:Hprefix; [|by left].
  intros Hdrop. right. apply HasPrefix_split in Hprefix.
  rewrite Hdrop, append_nil_r in Hprefix. done.
Qed.

(** The class name of a reference is empty only for the empty reference and
    for the bare prefix. *)
Lemma convertRefToClassName_empty (ref : string) :
  convertRefToClassName ref = EmptyString
  ↔ ref = EmptyString ∨ ref = definitions_prefix.
Proof.
  split.
  - intros Hname. by apply TrimPrefix_empty, Title_empty.
  - by intros [-> | ->].
Qed.

(** A class name does not start with a lowercase letter. *)
Lemma convertRefToClassName_not_any (ref : string) : convertRefToClassName ref ≠ "any".
Proof.
  unfold convertRefToClassName, Go.Title.
  destruct (Go.TrimPrefix ref definitions_prefix) as [|c rest]; [done|].
  cbn [Go.Title_from]. change (Go.isSeparator " ") with true. cbv iota.
  unfold Go.rune_ToTitle. intros [= Hc _].
  pose proof (rune_ToUpper_not_lower c) as Hlow. by rewrite Hc in Hlow.
Qed.

(** X7: the return type of a method is [any] exactly when the reference of
    its 200 response is empty or is the bare definitions prefix; for any
    other reference it is the class name of the reference. *)
Theorem return_type_any_iff (operation : Operation.t) :
  let ref :=
    ResponseSchema.Ref (ResponseOk.Schema (Responses.Ok (Operation.Responses operation))) in
  (return_type operation = "any" ↔ ref = EmptyString ∨ ref = definitions_prefix)
  ∧ (return_type operation = "any"
     ∨ return_type operation = convertRefToClassName ref).
Proof.
  cbn zeta. unfold return_type, Tmpl.truth.
  set (ref := ResponseSchema.Ref _).
  rewrite <- convertRefToClassName_empty.
  destruct (String.eqb_spec (convertRefToClassName ref) EmptyString) as [Hempty|Hname];
    cbn [negb].
  - split; [done|by left].
  - split; [|by right].
    split; [|done]. intros Hany. by apply convertRefToClassName_not_any in Hany.
Qed.

(** ** More on the definitions *)

Lemma write_andThen_assoc (s1 s2 : string) (e : Exec) :
  write s1 >>> write s2 >>> e = write (s1 +:+ s2) >>> e.
Proof. by rewrite <- andThen_assoc, write_write. Qed.

Lemma exec_definition_head `{MapKeys} (classname : string) (definition : Defn.t) :
  ∃ rest, written (exec_definition classname definition)
          = interface_head classname definition +:+ rest.
Proof.
  unfold exec_definition. rewrite !write_andThen_assoc.
  match goal with |- context [write ?text >>> ?e] =>
    destruct (written_andThen (write text) e) as [rest Hrest] end.
  exists rest. rewrite Hrest. unfold interface_head, written, write. cbn [fst].
  by rewrite !append_assoc.
Qed.

Lemma exec_property_reference (fieldname : string) (property : Property.t) :
  known_type_tag (Property.Type_ property) = false →
  exec_property fieldname property
  = write (field_head fieldname property
           +:+ convertRefToClassName (Property.Ref property) +:+ ";").
Proof.
  unfold known_type_tag. intros Htag.
  repeat (apply orb_false_iff in Htag as [Htag ?]).
  unfold exec_property, field_head.
  repeat match goal with H : Tmpl.eq _ _ = false |- _ => rewrite H; clear H end.
  fuse_writes.
Qed.

(** X6: a reference to a definition and the interface of that definition
    spell the same name.  For every key of a definition, the interface is
    opened under the title of the key, and a field that is a reference to
    the key (the definitions prefix, then the key) has that title for its
    type. *)
Theorem reference_names_interface `{MapKeys}
    (classname fieldname : string) (definition : Defn.t) (property : Property.t) :
  known_type_tag (Property.Type_ property) = false →
  Property.Ref property = definitions_prefix +:+ classname →
  (∃ rest, written (exec_definition classname definition)
           = nl +:+ "/** " +:+ Defn.Description definition +:+ " */" +:+ nl
             +:+ "export interface " +:+ Go.Title classname +:+ " {" +:+ rest)
  ∧ exec_property fieldname property
    = write (field_head fieldname property +:+ Go.Title classname +:+ ";").
Proof.
  intros Htag Href. split.
  - destruct (exec_definition_head classname definition) as [rest Hrest].
    exists rest. rewrite Hrest. unfold interface_head. by rewrite !append_assoc.
  - rewrite exec_property_reference by done.
    unfold convertRefToClassName. by rewrite Href, TrimPrefix_append.
Qed.

(** X6 at the definition [account] of the sample document and a reference
    to it. *)
Lemma reference_names_interface_witness :
  (∃ rest, written (@exec_definition keys_in_order "account"
                      {| Defn.Properties := ∅; Defn.Description := "An account." |})
           = nl +:+ "/** An account. */" +:+ nl
             +:+ "export interface Account {" +:+ rest)
  ∧ exec_property "owner" (untagged_property "#/definitions/account")
    = write (field_head "owner" (untagged_property "#/definitions/account")
             +:+ "Account;").
Proof.
  apply (@reference_names_interface keys_in_order "account" "owner"
           {| Defn.Properties := ∅; Defn.Description := "An account." |}
           (untagged_property "#/definitions/account")); reflexivity.
Defined.

(** X8: every field is written under the key that the document gives it,
    unchanged (no camel case), after a comment holding its description,
    and with the mark that makes it optional, whatever its type and even
    when the template stops in it. *)
Theorem field_written_under_its_key (fieldname : string) (property : Property.t) :
  ∃ rest, written (exec_property fieldname property)
          = nl +:+ "  // " +:+ Property.Description property +:+ nl +:+ "  "
            +:+ fieldname +:+ "?: " +:+ rest.
Proof.
  unfold exec_property.
  set (description := Property.Description property).
  split_branches;
    unfold cleanRef_of_struct, throw, andThen, write, written, failure;
    cbn [fst snd]; rewrite ?append_assoc, ?append_nil_r.
  - by exists "number;".
  - by exists "number;".
  - by exists "boolean;".
  - by exists "Array<string>;".
  - by exists "Array<number>;".
  - by exists "Array<boolean>;".
  - by exists ("Array<"
               +:+ convertRefToClassName (PropertyItems.Ref (Property.Items property))
               +:+ ">;").
  - by exists "Map<string, string>;".
  - by exists "Map<string, integer>;".
  - by exists "Map<string, boolean>;".
  - by exists "Map<".
  - by exists "string;".
  - by exists (convertRefToClassName (Property.Ref property) +:+ ";").
Qed.

(** X9: a primitive type tag decides the type of a field alone: integer and
    number give [number], boolean gives [boolean], string gives [string],
    whatever reference, items or additional properties the property also
    holds. *)
Theorem primitive_tag_decides_field_type
    (fieldname type_name : string) (property : Property.t) :
  primitive_type_name (Property.Type_ property) = Some type_name →
  exec_property fieldname property
  = write (field_head fieldname property +:+ type_name +:+ ";").
Proof.
  unfold primitive_type_name, exec_property, field_head.
  destruct (Tmpl.eq (Property.Type_ property) "integer").
  { intros [= <-]. fuse_writes. }
  destruct (Tmpl.eq (Property.Type_ property) "number").
  { intros [= <-]. fuse_writes. }
  destruct (Tmpl.eq (Property.Type_ property) "boolean").
  { intros [= <-]. fuse_writes. }
  destruct (Tmpl.eq (Property.Type_ property) "string") eqn:Hstring; [|done].
  intros [= <-]. apply String.eqb_eq in Hstring. rewrite Hstring.
  compare_tags. fuse_writes.
Qed.

(** X9 at a property tagged [integer] that also holds a reference. *)
Lemma primitive_tag_decides_field_type_witness :
  exec_property "count" (mk_property "integer" "#/definitions/account" "string" "How many.")
  = write (field_head "count"
             (mk_property "integer" "#/definitions/account" "string" "How many.")
           +:+ "number" +:+ ";").
Proof.
  apply (primitive_tag_decides_field_type "count" "number"
           (mk_property "integer" "#/definitions/account" "string" "How many.")).
  reflexivity.
Defined.

(** X10: an array whose items are tagged neither string, nor integer, nor
    boolean (tagged number, or not tagged) is an array of the class that
    the reference of its items names; with no such reference the field is
    an [Array<>], and the template goes on. *)
Theorem array_of_other_items_is_reference (fieldname : string) (property : Property.t) :
  Property.Type_ property = "array" →
  Tmpl.eq (PropertyItems.Type_ (Property.Items property)) "string" = false →
  Tmpl.eq (PropertyItems.Type_ (Property.Items property)) "integer" = false →
  Tmpl.eq (PropertyItems.Type_ (Property.Items property)) "boolean" = false →
  exec_property fieldname property
  = write (field_head fieldname property +:+ "Array<"
           +:+ convertRefToClassName (PropertyItems.Ref (Property.Items property))
           +:+ ">;")
  ∧ (PropertyItems.Ref (Property.Items property) = EmptyString →
     exec_property fieldname property
     = write (field_head fieldname property +:+ "Array<>;")).
Proof.
  intros Htag Hstring Hinteger Hboolean.
  assert (exec_property fieldname property
          = write (field_head fieldname property +:+ "Array<"
                   +:+ convertRefToClassName (PropertyItems.Ref (Property.Items property))
                   +:+ ">;")) as Hfield.
  { unfold exec_property, field_head. rewrite Htag, Hstring, Hinteger, Hboolean.
    compare_tags. fuse_writes. }
  split; [done|]. intros Href. by rewrite Hfield, Href.
Qed.

(** X10 at an array of numbers. *)
Lemma array_of_other_items_is_reference_witness :
  exec_property "scores" numbers_property
  = write (nl +:+ "  // The scores." +:+ nl +:+ "  scores?: Array<>;").
Proof.
  apply (array_of_other_items_is_reference "scores" numbers_property); reflexivity.
Defined.

(** ** More on the operations *)

Lemma concat_map_filter {A} (keep : A → bool) (text : A → string) (l : list A) :
  concat_map (λ x, if keep x then text x else EmptyString) l
  = concat_map text (List.filter keep l).
Proof.
  induction l as [|x l IH]; [done|].
  cbn [concat_map List.filter]. destruct (keep x); cbn [concat_map]; by rewrite IH.
Qed.

Lemma exec_path_replace_write (p : Param.t) :
  exec_path_replace p = write (if in_path p then path_replace_text p else EmptyString).
Proof.
  unfold exec_path_replace, in_path, path_replace_text, argument_name.
  destruct (Tmpl.eq (Param.In p) "path"); [|done].
  rewrite !write_write. f_equal. by rewrite !append_assoc.
Qed.

Lemma exec_query_entry_write (p : Param.t) :
  exec_query_entry p = write (if in_query p then query_entry_text p else EmptyString).
Proof.
  unfold exec_query_entry, in_query, query_entry_text, argument_name.
  destruct (Tmpl.eq (Param.In p) "query"); [|done]. fuse_writes.
Qed.

Lemma exec_body_assign_write (p : Param.t) :
  exec_body_assign p = write (if in_body p then body_assign_text p else EmptyString).
Proof.
  unfold exec_body_assign, in_body, body_assign_text, argument_name.
  destruct (Tmpl.eq (Param.In p) "body"); [|done]. fuse_writes.
Qed.

(** X12: the wiring of a method is made of the URL, one [replace] for each
    path parameter, one entry of [queryParams] for each query parameter, one
    assignment of [_body] for each body parameter, each group in the order
    of the declarations, and the call of the dispatcher; it never fails and
    no other parameter leaves a trace in it. *)
Theorem wiring_lines_by_location (url method : string) (parameters : list Param.t) :
  exec_wiring url method parameters
  = write (nl +:+ tpl "      const urlPath = `" +:+ url +:+ tpl "`"
           +:+ concat_map path_replace_text (List.filter in_path parameters)
           +:+ ";" +:+ nl +:+ nl +:+ "      const queryParams = {"
           +:+ concat_map query_entry_text (List.filter in_query parameters)
           +:+ nl +:+ "      } as any;" +:+ nl +:+ nl +:+ "      let _body = null;"
           +:+ concat_map body_assign_text (List.filter in_body parameters)
           +:+ dispatch_text method).
Proof.
  unfold exec_wiring.
  rewrite (range_write parameters exec_path_replace
             (λ p, if in_path p then path_replace_text p else EmptyString))
    by (intros; apply exec_path_replace_write).
  rewrite (range_write parameters exec_query_entry
             (λ p, if in_query p then query_entry_text p else EmptyString))
    by (intros; apply exec_query_entry_write).
  rewrite (range_write parameters exec_body_assign
             (λ p, if in_body p then body_assign_text p else EmptyString))
    by (intros; apply exec_body_assign_write).
  rewrite !concat_map_filter, exec_dispatch_write, !write_write.
  f_equal. all: by rewrite ?append_assoc.
Qed.

(** X11: an operation none of whose parameters reaches line 155 is written
    whole and in this order: the comment with its summary, the camel-case
    name of its operation id, one argument for each parameter in the order
    of the declarations, [options: any = {}], the return type, the checks
    of the required parameters in the order of the declarations, and the
    wiring. *)
Theorem operation_written_whole (url method : string) (operation : Operation.t) :
  (∀ p, p ∈ Operation.Parameters operation → reaches_line_155 p = false) →
  exec_operation url method operation
  = write (method_head operation
           +:+ concat_map (λ p, written (exec_argument p)) (Operation.Parameters operation)
           +:+ "options: any = {}): Promise<" +:+ return_type operation +:+ "> {"
           +:+ required_checks (Operation.Parameters operation)
           +:+ written (exec_wiring url method (Operation.Parameters operation))).
Proof.
  intros Hparams. unfold exec_operation, exec_body.
  rewrite (signature_ends_with_options operation Hparams), range_required_checks.
  destruct (exec_wiring_write url method (Operation.Parameters operation)) as [wiring ->].
  rewrite !write_write. unfold method_head, written, write. cbn [fst].
  f_equal. all: by rewrite ?append_assoc.
Qed.

(** X11 at the operation [get_user]. *)
Lemma operation_written_whole_witness :
  exec_operation "/v1/user/{id}" "get" get_user
  = write (method_head get_user
           +:+ concat_map (λ p, written (exec_argument p)) (Operation.Parameters get_user)
           +:+ "options: any = {}): Promise<" +:+ return_type get_user +:+ "> {"
           +:+ required_checks (Operation.Parameters get_user)
           +:+ written (exec_wiring "/v1/user/{id}" "get" (Operation.Parameters get_user))).
Proof.
  apply (operation_written_whole "/v1/user/{id}" "get" get_user).
  intros p Hp. apply list_elem_of_singleton in Hp as ->. reflexivity.
Defined.

(** X18: a path parameter is typed by its bare type tag, whatever the tag
    (an integer in the path is an [integer], and a path parameter tagged
    [object] does not stop the template); a body parameter is typed
    [string] when its schema is tagged string and otherwise by the class
    name of the reference of its schema, whatever its own type tag. *)
Theorem path_and_body_arguments (parameter : Param.t) :
  (Tmpl.eq (Param.In parameter) "path" = true →
   exec_argument parameter
   = write (argument_name parameter +:+ optional_mark_text parameter +:+ ": "
            +:+ Param.Type_ parameter +:+ ", "))
  ∧ (Tmpl.eq (Param.In parameter) "body" = true →
     exec_argument parameter
     = write (argument_name parameter +:+ optional_mark_text parameter +:+ ": "
              +:+ (if Tmpl.eq (ParamSchema.Type_ (Param.Schema parameter)) "string"
                   then "string"
                   else convertRefToClassName (ParamSchema.Ref (Param.Schema parameter)))
              +:+ ", ")).
Proof.
  split.
  - intros Hpath. unfold exec_argument, argument_name.
    rewrite Hpath, optional_mark_write. fuse_writes.
  - intros Hbody.
    assert (Param.In parameter = "body") as Hin by by apply String.eqb_eq.
    unfold exec_argument, argument_name. rewrite Hin, optional_mark_write.
    compare_tags.
    destruct (Tmpl.eq (ParamSchema.Type_ (Param.Schema parameter)) "string") eqn:Hstring.
    + apply String.eqb_eq in Hstring. rewrite Hstring. fuse_writes.
    + fuse_writes.
Qed.

(** X18 at an integer in the path and at a body that is a reference. *)
Lemma path_and_body_arguments_witness :
  exec_argument user_id_parameter = write "userId: integer, "
  ∧ exec_argument account_parameter = write "account?: Account, ".
Proof.
  split.
  - apply (path_and_body_arguments user_id_parameter). reflexivity.
  - apply (path_and_body_arguments account_parameter). reflexivity.
Defined.

(** ** More on the whole template *)

Lemma append_length (s1 s2 : string) :
  String.length (s1 +:+ s2) = String.length s1 + String.length s2.
Proof. induction s1 as [|c s1 IH]; [done|]. rewrite append_cons. cbn. by rewrite IH. Qed.

Lemma text_factory_length : 0 < String.length text_factory.
Proof. vm_compute. lia. Qed.

Lemma text_tail_length : 0 < String.length text_tail.
Proof. vm_compute. lia. Qed.

Section AnyOrderMore.
Context `{MapKeys}.

(** X14: a range of the template over a map of the schema (the definitions,
    the properties of a definition, the paths, the methods of a path) visits
    the keys of the map in increasing bytewise order, each key once and no
    other key. *)
Theorem range_map_in_key_order {V} (m : gmap string V) (body : string → V → Exec) :
  ∃ keys,
    Sorted String.le keys
    ∧ NoDup keys
    ∧ (∀ key, key ∈ keys ↔ is_Some (m !! key))
    ∧ range_map m body
      = range keys (λ key, match m !! key with
                           | Some v => body key v
                           | None => write EmptyString
                           end).
Proof.
  exists (sortKeys (map_keys m)). split; [apply sortKeys_sorted|]. split.
  - unfold sortKeys. rewrite merge_sort_Permutation, map_keys_perm.
    apply NoDup_fst_map_to_list.
  - split; [apply elem_of_sortKeys_map_keys|done].
Qed.

(** X13: when the template fails, the output is cut where it failed: in
    the definitions, and then nothing follows them, neither the factory nor
    an operation; or in the operations, and then the text that closes the
    factory is missing. *)
Theorem failed_execution_truncates (schema : Schema.t) (err : ExecError) :
  failure (Execute schema) = Some err →
  (failure (exec_definitions schema) = Some err
   ∧ written (Execute schema) = text_head +:+ written (exec_definitions schema))
  ∨ (failure (exec_definitions schema) = None
     ∧ failure (exec_paths schema) = Some err
     ∧ written (Execute schema)
       = text_head +:+ written (exec_definitions schema) +:+ text_factory
         +:+ written (exec_paths schema)).
Proof.
  unfold Execute.
  destruct (exec_definitions schema) as [definitions [e1|]].
  - intros [= <-]. by left.
  - destruct (exec_paths schema) as [paths [e2|]]; [|done].
    intros [= <-]. right. split; [done|]. split; [done|].
    unfold andThen, write, written, failure. by cbn [fst snd].
Qed.

(** X17: the output is the whole module (the head, the interfaces, the
    factory, the methods and the tail) exactly when no property of a
    definition reaches line 70 and no parameter of an operation reaches
    line 155. *)
Theorem whole_module_iff (schema : Schema.t) :
  main_output schema
  = text_head +:+ written (exec_definitions schema) +:+ text_factory
    +:+ written (exec_paths schema) +:+ text_tail
  ↔ (∀ classname definition fieldname property,
       Schema.Definitions schema !! classname = Some definition →
       Defn.Properties definition !! fieldname = Some property →
       reaches_line_70 property = false)
    ∧ (∀ url path method operation parameter,
         Schema.Paths schema !! url = Some path →
         path !! method = Some operation →
         parameter ∈ Operation.Parameters operation →
         reaches_line_155 parameter = false).
Proof.
  rewrite <- Execute_failure_None. unfold main_output. split.
  - intros Hwhole. destruct (failure (Execute schema)) as [err|] eqn:Hfailure; [|done].
    apply failed_execution_truncates in Hfailure as [[_ Hcut]|(_ & _ & Hcut)];
      rewrite Hcut in Hwhole; apply (f_equal String.length) in Hwhole;
      rewrite !append_length in Hwhole;
      pose proof text_factory_length; pose proof text_tail_length; lia.
  - intros Hcomplete. by rewrite (Execute_complete schema Hcomplete).
Qed.

(** ** The driver *)

Section Driver.
Variable ReadFile : string → string + string.
Variable Unmarshal : string → Schema.t + string.
Variable Create : string → option string.

Lemma output_unset (output : string) :
  (String.length output <? 1) = true ↔ output = EmptyString.
Proof. destruct output; [done|]. cbn. by split. Qed.


(** X16: when the first input is read and decoded and the output is the
    standard output or a file that can be created, [main] writes there what
    the template wrote, whole or cut, and prints no message: a failure of
    the template is not reported. *)
Theorem main_writes_template_output
    (output input content : string) (rest : list string) (schema : Schema.t) :
  ReadFile input = inl content →
  Unmarshal content = inl schema →
  output = EmptyString ∨ Create output = None →
  let effects := main ReadFile Unmarshal Create output (input :: rest) in
  generated effects = [main_output schema]
  ∧ messages effects = []
  ∧ (output = EmptyString → effects = [Execute_to_Stdout (main_output schema)])
  ∧ (output ≠ EmptyString →
     effects = [Created output; Execute_to_File output (main_output schema)]).
Proof.
  intros Hread Hdecode Hdestination. cbn zeta. unfold main, main_output.
  rewrite Hread, Hdecode.
  destruct (String.length output <? 1) eqn:Hunset.
  - apply output_unset in Hunset. by repeat split.
  - assert (output ≠ EmptyString) as Hset.
    { intros Hempty. apply output_unset in Hempty. congruence. }
    destruct Hdestination as [?|Hcreate]; [done|]. rewrite Hcreate. by repeat split.
Qed.

End Driver.
End AnyOrderMore.

(** X16 at the sample outside, to a file. *)
Lemma main_writes_template_output_witness :
  let effects :=
    @main keys_in_order sample_ReadFile sample_Unmarshal sample_Create
      "api.gen.ts" ["api.swagger.json"; "ignored.json"] in
  generated effects = [@main_output keys_in_order empty_schema]
  ∧ messages effects = []
  ∧ ("api.gen.ts" = EmptyString →
     effects = [Execute_to_Stdout (@main_output keys_in_order empty_schema)])
  ∧ ("api.gen.ts" ≠ EmptyString →
     effects = [Created "api.gen.ts";
                Execute_to_File "api.gen.ts" (@main_output keys_in_order empty_schema)]).
Proof.
  apply (@main_writes_template_output keys_in_order
           sample_ReadFile sample_Unmarshal sample_Create
           "api.gen.ts" "api.swagger.json" "{}" ["ignored.json"] empty_schema).
  - reflexivity.
  - reflexivity.
  - right. reflexivity.
Defined.

(** X13 at the document whose property [vars] reaches line 70. *)
Lemma failed_execution_truncates_witness :
  (failure (@exec_definitions keys_in_order session_schema)
   = Some (wrong_type_for_value "string" "struct { Type string }")
   ∧ written (@Execute keys_in_order session_schema)
     = text_head +:+ written (@exec_definitions keys_in_order session_schema))
  ∨ (failure (@exec_definitions keys_in_order session_schema) = None
     ∧ failure (@exec_paths keys_in_order session_schema)
       = Some (wrong_type_for_value "string" "struct { Type string }")
     ∧ written (@Execute keys_in_order session_schema)
       = text_head +:+ written (@exec_definitions keys_in_order session_schema)
         +:+ text_factory +:+ written (@exec_paths keys_in_order session_schema)).
Proof.
  apply (@failed_execution_truncates keys_in_order session_schema). by vm_compute.
Defined.
